(** * A multilayer Elman RNN written by hand: the forward pass of [MyRNN]

    Shallow embedding of [rnn_by_hand.ipynb]: the step function
    [compute_new_hidden_state], the wrapper class [MyRNN] ([__init__] and
    [forward]), and the part of the tensor library the two rely on.

    Tensors are dense row-major arrays of binary64 numbers, as the notebook
    creates them ([dtype=torch.float64]); scalars are Rocq's primitive
    floats, so NaN, the infinities and signed zeros behave as in IEEE 754.
    Python exceptions are the [Raise] results of an error monad.

    What the model fixes where torch leaves a choice, and what it leaves
    out:
    - a matrix product sums each row-by-column product from the left,
      starting at 0; no statement below depends on the order;
    - the right operand of [@] is a matrix, as every weight of an [nn.RNN]
      is; on another rank the product answers [Unmodelled];
    - [torch.tanh] is a parameter of the development, [torch.relu] keeps a
      negative zero;
    - gradients, devices and dtype conversions play no part. *)

From Stdlib Require Import Floats.PrimFloat ZArith Lia.
From stdpp Require Import gmap strings list pretty.

Set Default Proof Using "Type".

(** ** Exceptions and the error monad *)

Inductive exn :=
  | IndexError      (* index out of range, too many indices, 0-dim indexing *)
  | RuntimeError    (* torch: operand shapes do not agree *)
  | AttributeError  (* attribute access on [None] *)
  | AssertionError  (* a failed [assert] *)
  | Unmodelled.     (* an operand rank outside the modelled part of torch *)

Inductive result (A : Type) :=
  | Ok (a : A)
  | Raise (e : exn).
Arguments Ok {A} a.
Arguments Raise {A} e.

Definition bind {A B} (r : result A) (k : A -> result B) : result B :=
  match r with
  | Ok a => k a
  | Raise e => Raise e
  end.

Notation "x <- e ;; k" := (bind e (fun x => k))
  (at level 100, e at next level, k at level 200, right associativity).

(** [for x in xs: s = body(x, s)], stopping at the first exception. *)
Fixpoint for_each {S : Type} (xs : list nat) (body : nat -> S -> result S)
    (s : S) : result S :=
  match xs with
  | [] => Ok s
  | x :: xs' => s' <- body x s ;; for_each xs' body s'
  end.

(** ** Tensors *)

Record Tensor := mkTensor { shape : list nat; data : list float }.

Global Instance float_inhabited : Inhabited float := populate 0%float.

Definition numel (s : list nat) : nat := foldr Nat.mul 1 s.
Arguments numel : simpl never.

(** Every tensor torch builds holds exactly [numel shape] numbers. *)
Definition wf (t : Tensor) : Prop := length (data t) = numel (shape t).
Definition wfb (t : Tensor) : bool := length (data t) =? numel (shape t).

(** [t.shape[i]] for a literal [i]: the shape is a tuple. *)
Definition shape_at (t : Tensor) (i : nat) : result nat :=
  match shape t !! i with
  | Some n => Ok n
  | None => Raise IndexError
  end.

(** [torch.zeros] at shape [s], with [dtype=torch.float64] *)
Definition torch_zeros (s : list nat) : Tensor :=
  mkTensor s (replicate (numel s) 0%float).

(** [t[:] = x] for a number [x] *)
Definition fill (t : Tensor) (x : float) : Tensor :=
  mkTensor (shape t) (replicate (length (data t)) x).

(** A Python integer used as an index into a dimension of size [n]. *)
Definition norm_index (i : Z) (n : nat) : result nat :=
  if decide (0 <= i < Z.of_nat n)%Z then Ok (Z.to_nat i)
  else if decide (- Z.of_nat n <= i < 0)%Z then Ok (Z.to_nat (i + Z.of_nat n))
  else Raise IndexError.

(** The [i]-th block of [sz] numbers. *)
Definition block (i sz : nat) (d : list float) : list float :=
  take sz (drop (i * sz) d).

(** [t[i]] *)
Definition select0 (t : Tensor) (i : Z) : result Tensor :=
  match shape t with
  | [] => Raise IndexError
  | n :: s => k <- norm_index i n ;; Ok (mkTensor s (block k (numel s) (data t)))
  end.

(** [t[i, j]], which reads what [t[i][j]] reads *)
Definition index2 (t : Tensor) (i j : Z) : result Tensor :=
  r <- select0 t i ;; select0 r j.

(** [t[:, j]] *)
Definition select1 (t : Tensor) (j : Z) : result Tensor :=
  match shape t with
  | n0 :: n1 :: s =>
      k <- norm_index j n1 ;;
      Ok (mkTensor (n0 :: s)
            (a ← seq 0 n0; block (a * n1 + k) (numel s) (data t)))
  | _ => Raise IndexError
  end.

(** *** Broadcasting *)

(** Shapes are aligned at their last dimension; [broadcast_rev] works on the
    reversed shapes. *)
Fixpoint broadcast_rev (a b : list nat) : option (list nat) :=
  match a, b with
  | [], _ => Some b
  | _, [] => Some a
  | x :: a', y :: b' =>
      if decide (x = y) then cons x <$> broadcast_rev a' b'
      else if decide (x = 1) then cons y <$> broadcast_rev a' b'
      else if decide (y = 1) then cons x <$> broadcast_rev a' b'
      else None
  end.

Definition broadcast_shapes (a b : list nat) : option (list nat) :=
  reverse <$> broadcast_rev (reverse a) (reverse b).

(** The numbers of a tensor of shape [from] laid out in shape [to], the two
    of one rank and each dimension of [from] either that of [to] or 1. *)
Fixpoint expand_data (from to : list nat) (d : list float) : list float :=
  match from, to with
  | a :: from', b :: to' =>
      let sz := numel from' in
      if decide (a = b)
      then i ← seq 0 a; expand_data from' to' (block i sz d)
      else mjoin (replicate b (expand_data from' to' (block 0 sz d)))
  | _, _ => d
  end.

Definition pad_shape (s : list nat) (rank : nat) : list nat :=
  replicate (rank - length s) 1 ++ s.

Definition expand_to (t : Tensor) (s : list nat) : list float :=
  expand_data (pad_shape (shape t) (length s)) s (data t).

(** [a + b] for two tensors *)
Definition torch_add (a b : Tensor) : result Tensor :=
  match broadcast_shapes (shape a) (shape b) with
  | Some s => Ok (mkTensor s (zip_with PrimFloat.add (expand_to a s) (expand_to b s)))
  | None => Raise RuntimeError
  end.

(** [a + x] for a number [x] *)
Definition add_scalar (a : Tensor) (x : float) : Tensor :=
  mkTensor (shape a) (map (fun y => PrimFloat.add y x) (data a)).

(** [t[i, j] = v]: [v] is broadcast to the shape of the slot and copied in. *)
Definition setitem2 (t : Tensor) (i j : Z) (v : Tensor) : result Tensor :=
  match shape t with
  | n0 :: n1 :: s =>
      a <- norm_index i n0 ;;
      b <- norm_index j n1 ;;
      if decide (broadcast_shapes (shape v) s = Some s)
      then Ok (mkTensor (shape t)
                 (list_inserts ((a * n1 + b) * numel s) (expand_to v s) (data t)))
      else Raise RuntimeError
  | _ => Raise IndexError
  end.

(** *** Matrix product *)

(** [w.T]: the transpose of a matrix; a vector or a number is its own. *)
Definition transpose_data (r c : nat) (d : list float) : list float :=
  j ← seq 0 c; (fun i => d !!! (i * c + j)) <$> seq 0 r.

Definition transpose (w : Tensor) : result Tensor :=
  match shape w with
  | [] | [_] => Ok w
  | [r; c] => Ok (mkTensor [c; r] (transpose_data r c (data w)))
  | _ => Raise Unmodelled
  end.

(** The sum of products of two rows, accumulated from the left. *)
Definition dot (u v : list float) : float :=
  foldl PrimFloat.add 0%float (zip_with PrimFloat.mul u v).

(** The columns of a [k] by [n] matrix. *)
Definition columns (k n : nat) (d : list float) : list (list float) :=
  reshape (replicate n k) (transpose_data k n d).

(** [a @ b] for a matrix [b]: every row of [a] (its last dimension) is
    multiplied into [b]; the leading dimensions of [a] are kept. *)
Definition matmul (a b : Tensor) : result Tensor :=
  match shape b with
  | [k; n] =>
      match reverse (shape a) with
      | [] => Raise RuntimeError
      | k' :: lead_rev =>
          if decide (k' = k) then
            let lead := reverse lead_rev in
            let rows := reshape (replicate (numel lead) k) (data a) in
            let cols := columns k n (data b) in
            Ok (mkTensor (lead ++ [n]) (r ← rows; dot r <$> cols))
          else Raise RuntimeError
      end
  | [] => Raise RuntimeError
  | _ => Raise Unmodelled
  end.

(** [t.isnan().any()] *)
Definition isnan_any (t : Tensor) : bool := existsb PrimFloat.is_nan (data t).

(** *** Activations *)

(** [torch.relu] on one number: NaN stays NaN. *)
Definition relu (x : float) : float :=
  if PrimFloat.ltb x 0%float then 0%float else x.

(** The two callables [MyRNN.__init__] chooses between. *)
Inductive Callable := torch_relu | torch_tanh.

Definition tmap (f : float -> float) (t : Tensor) : Tensor :=
  mkTensor (shape t) (f <$> data t).

(** The row-major array of an [n] by [m] matrix whose entry in row [i] and
    column [j] is [F i j]. *)
Definition table (n m : nat) (F : nat -> nat -> float) : list float :=
  i ← seq 0 n; F i <$> seq 0 m.

(** ** The notebook *)

(** What [params.get(key, 0)] returns: a stored tensor, or the Python
    integer [0]. *)
Inductive operand :=
  | OTensor (t : Tensor)
  | OInt0.

(** [a + b] where [b] is a tensor or the integer [0] *)
Definition add_operand (a : Tensor) (b : operand) : result Tensor :=
  match b with
  | OTensor t => torch_add a t
  | OInt0 => Ok (add_scalar a 0%float)
  end.

(** [w.T] where [w] is what [params.get(key)] returned: [None] has no [T]. *)
Definition attr_T (w : option Tensor) : result Tensor :=
  match w with
  | Some t => transpose t
  | None => Raise AttributeError
  end.

(** The object built by [MyRNN.__init__]. *)
Record MyRNN := mkMyRNN {
  num_layers : nat;
  hidden_size : nat;
  params : gmap string Tensor;
  activation_func : Callable
}.

(** What [__init__] reads of the wrapped [nn.RNN]. *)
Record RNN := mkRNN {
  rnn_num_layers : nat;
  rnn_hidden_size : nat;
  named_parameters : list (string * Tensor);
  nonlinearity : string
}.

(** [dict(pairs)]: a later pair replaces an earlier one with the same key. *)
Definition dict (pairs : list (string * Tensor)) : gmap string Tensor :=
  foldl (fun m kv => <[kv.1 := kv.2]> m) ∅ pairs.

(** [MyRNN.__init__] *)
Definition MyRNN_init (rnn : RNN) : MyRNN :=
  {| num_layers := rnn_num_layers rnn;
     hidden_size := rnn_hidden_size rnn;
     params := dict (named_parameters rnn);
     activation_func :=
       if decide (nonlinearity rnn = "relu") then torch_relu else torch_tanh |}.

(** The grid of hidden states while the loops of [forward] run, with the log
    of the cells assigned so far. The log is ghost state: nothing reads it. *)
Record loop_state := mkLoop {
  hidden_states : Tensor;
  written : list (nat * nat)
}.

(** [self.params.get(key)] and [self.params.get(key, 0)] *)
Definition get (self : MyRNN) (key : string) : option Tensor :=
  params self !! key.

Definition get_or_0 (self : MyRNN) (key : string) : operand :=
  from_option OTensor OInt0 (params self !! key).

Section Forward.

(** [torch.tanh] on one number. Primitive floats come without a hyperbolic
    tangent, so the development is parametric in it. *)
Variable tanh : float -> float.

(** What a callable does to each number of its argument. *)
Definition activation (f : Callable) : float -> float :=
  match f with
  | torch_relu => relu
  | torch_tanh => tanh
  end.

Definition call (f : Callable) (t : Tensor) : Tensor := tmap (activation f) t.

(** [activation_func(previous_hidden_state @ weight_hh.T + bias_hh
                     + inputs @ weight_ih.T + bias_ih)],
    evaluated as Python does, the operands from left to right and [@]
    before [+]. The weights come as [params.get] hands them over, [None] for
    a missing key; the biases as [params.get(key, 0)] does. *)
Definition compute_new_hidden_state
    (previous_hidden_state inputs : Tensor)
    (weight_hh : option Tensor) (bias_hh : operand)
    (weight_ih : option Tensor) (bias_ih : operand)
    (activation_func : Callable) : result Tensor :=
  whh_T <- attr_T weight_hh ;;
  hh <- matmul previous_hidden_state whh_T ;;
  s1 <- add_operand hh bias_hh ;;
  wih_T <- attr_T weight_ih ;;
  ih <- matmul inputs wih_T ;;
  s2 <- torch_add s1 ih ;;
  s3 <- add_operand s2 bias_ih ;;
  Ok (call activation_func s3).

(** The body of the inner loop of [forward]: the two reads, the step with
    the parameters of the layer, and the assignment to
    [hidden_states[idx, layer]]. *)
Definition cell_update (self : MyRNN) (X hidden_0 : Tensor)
    (idx layer : nat) (st : loop_state) : result loop_state :=
  let hs := hidden_states st in
  previous_hidden_states <-
    (if decide (idx = 0) then Ok hidden_0 else select0 hs (Z.of_nat idx - 1)) ;;
  inputs <-
    (if decide (layer = 0) then select0 X (Z.of_nat idx)
     else index2 hs (Z.of_nat idx) (Z.of_nat layer - 1)) ;;
  previous_hidden_state <- select0 previous_hidden_states (Z.of_nat layer) ;;
  h <- compute_new_hidden_state
         previous_hidden_state
         inputs
         (get self ("weight_hh_l" +:+ pretty layer))
         (get_or_0 self ("bias_hh_l" +:+ pretty layer))
         (get self ("weight_ih_l" +:+ pretty layer))
         (get_or_0 self ("bias_ih_l" +:+ pretty layer))
         (activation_func self) ;;
  hs' <- setitem2 hs (Z.of_nat idx) (Z.of_nat layer) h ;;
  Ok (mkLoop hs' (written st ++ [(idx, layer)])).

(** [forward] up to the end of its two loops: the sizes read off [X], the
    default [hidden_0], the grid filled with NaN, and the loops over
    [range(seq_length)] and [range(self.num_layers)]. *)
Definition forward_loops (self : MyRNN) (X : Tensor) (hidden_0 : option Tensor)
    : result loop_state :=
  seq_length <- shape_at X 0 ;;
  batch_size <- shape_at X 1 ;;
  let hidden_0 :=
    match hidden_0 with
    | None => torch_zeros [num_layers self; batch_size; hidden_size self]
    | Some h => h
    end in
  let hidden_states :=
    torch_zeros [seq_length; num_layers self; batch_size; hidden_size self] in
  let hidden_states := fill hidden_states nan in
  for_each (seq 0 seq_length)
    (fun idx => for_each (seq 0 (num_layers self))
       (fun layer => cell_update self X hidden_0 idx layer))
    (mkLoop hidden_states []).

(** [MyRNN.forward]: the loops, the assertion that no NaN is left, and the
    two views [hidden_states[:, -1]] and [hidden_states[-1]]. *)
Definition forward (self : MyRNN) (X : Tensor) (hidden_0 : option Tensor)
    : result (Tensor * Tensor) :=
  st <- forward_loops self X hidden_0 ;;
  let hidden_states := hidden_states st in
  if isnan_any hidden_states then Raise AssertionError
  else
    last_layer <- select1 hidden_states (-1) ;;
    final <- select0 hidden_states (-1) ;;
    Ok (last_layer, final).

End Forward.

(** ** Specifications *)

(** *** Conformant parameters

    The parameters of an [nn.RNN] with hidden size [H], [L] layers and inputs
    of [D] features: for every layer below [L], a recurrent weight of shape
    [H, H], an input weight of shape [H, D] (layer 0) or [H, H] (the layers
    above), and two biases of shape [H], or none when the model was built
    with [bias=False]. *)
Definition weight_okb (w : option Tensor) (s : list nat) : bool :=
  match w with
  | Some t => bool_decide (shape t = s) && wfb t
  | None => false
  end.

Definition bias_okb (b : option Tensor) (H : nat) : bool :=
  match b with
  | Some t => bool_decide (shape t = [H]) && wfb t
  | None => true
  end.

Definition layer_okb (self : MyRNN) (D layer : nat) : bool :=
  let H := hidden_size self in
  weight_okb (get self ("weight_hh_l" +:+ pretty layer)) [H; H]
  && weight_okb (get self ("weight_ih_l" +:+ pretty layer))
       [H; if decide (layer = 0) then D else H]
  && bias_okb (get self ("bias_hh_l" +:+ pretty layer)) H
  && bias_okb (get self ("bias_ih_l" +:+ pretty layer)) H.

Definition params_okb (self : MyRNN) (D : nat) : bool :=
  forallb (layer_okb self D) (seq 0 (num_layers self)).

(** A bias the step accepts for hidden size [H]: a vector of [H] numbers, or
    the integer [0]. *)
Definition bias_conformant (H : nat) (b : operand) : Prop :=
  match b with
  | OTensor t => shape t = [H] /\ wf t
  | OInt0 => True
  end.

(** The store of a model built with [bias=False] holds no bias at all. *)
Definition is_absent (o : option Tensor) : bool :=
  match o with
  | None => true
  | Some _ => false
  end.

Definition bias_freeb (self : MyRNN) : bool :=
  forallb (fun layer =>
             is_absent (get self ("bias_hh_l" +:+ pretty layer))
             && is_absent (get self ("bias_ih_l" +:+ pretty layer)))
    (seq 0 (num_layers self)).

(** The same model with both biases of every layer set to the zero vector. *)
Definition zero_biases (self : MyRNN) : MyRNN :=
  let z := torch_zeros [hidden_size self] in
  {| num_layers := num_layers self;
     hidden_size := hidden_size self;
     params :=
       foldr (fun layer p =>
                <["bias_hh_l" +:+ pretty layer := z]>
                  (<["bias_ih_l" +:+ pretty layer := z]> p))
         (params self) (seq 0 (num_layers self));
     activation_func := activation_func self |}.

Global Instance Tensor_inhabited : Inhabited Tensor := populate (mkTensor [] []).

(** The cells assigned before the loops reach [(idx, layer)], in the order
    the loops visit them. *)
Definition cells_before (L idx layer : nat) : list (nat * nat) :=
  (t ← seq 0 idx; pair t <$> seq 0 L) ++ (pair idx <$> seq 0 layer).

(** The grid has shape [s] and holds as many numbers as [s] asks for. *)
Definition grid_shape (s : list nat) (st : loop_state) : Prop :=
  shape (hidden_states st) = s /\ length (data (hidden_states st)) = numel s.

Section Specification.

Variable tanh : float -> float.

(** The step as its formula reads, entry by entry: for a batch row [b] and a
    hidden unit [h],
    [act (prev[b] . w_hh[h] + b_hh[h] + inputs[b] . w_ih[h] + b_ih[h])],
    the sums taken from left to right. An absent bias counts as [0]. *)
Definition bias_at (b : operand) (h : nat) : float :=
  match b with
  | OTensor t => data t !!! h
  | OInt0 => 0%float
  end.

Definition new_hidden_formula (B H D : nat) (prev inp w_hh : Tensor)
    (b_hh : operand) (w_ih : Tensor) (b_ih : operand) (act : Callable) : Tensor :=
  mkTensor [B; H]
    (table B H (fun b h =>
       activation tanh act
         (PrimFloat.add
            (PrimFloat.add
               (PrimFloat.add
                  (dot (block b H (data prev)) (block h H (data w_hh)))
                  (bias_at b_hh h))
               (dot (block b D (data inp)) (block h D (data w_ih))))
            (bias_at b_ih h)))).

(** The step function at the parameters of one layer. *)
Definition layer_step (self : MyRNN) (layer : nat) (prev inp : Tensor)
    : result Tensor :=
  compute_new_hidden_state tanh prev inp
    (get self ("weight_hh_l" +:+ pretty layer))
    (get_or_0 self ("bias_hh_l" +:+ pretty layer))
    (get self ("weight_ih_l" +:+ pretty layer))
    (get_or_0 self ("bias_ih_l" +:+ pretty layer))
    (activation_func self).

(** [grid t l] obeys the recurrence of the hidden states: each cell is the
    step of its layer applied to the cell one time step back ([hidden_0[l]]
    at time 0) and to the cell one layer down ([X[t]] at layer 0). *)
Definition recurrence_at (self : MyRNN) (X hidden_0 : Tensor)
    (grid : nat -> nat -> Tensor) (t l : nat) : Prop :=
  exists prev inp,
    (if decide (t = 0) then select0 hidden_0 (Z.of_nat l)
     else Ok (grid (t - 1) l)) = Ok prev /\
    (if decide (l = 0) then select0 X (Z.of_nat t)
     else Ok (grid t (l - 1))) = Ok inp /\
    layer_step self l prev inp = Ok (grid t l).

Definition recurrence (self : MyRNN) (X hidden_0 : Tensor) (T : nat)
    (grid : nat -> nat -> Tensor) : Prop :=
  forall t l, t < T -> l < num_layers self ->
    recurrence_at self X hidden_0 grid t l.

(** The cells of a grid with [L] layers, listed time step by time step. *)
Definition grid_of (L : nat) (G : list Tensor) (t l : nat) : Tensor :=
  G !!! (t * L + l).

Definition cell_ok (B H : nat) (c : Tensor) : Prop :=
  shape c = [B; H] /\ wf c.

(** The state of the loops when they reach [(idx, layer)]: the cells before
    it hold the hidden states of the recurrence, the others still hold NaN,
    and the log lists the cells before it. *)
Definition loop_inv (self : MyRNN) (X hidden_0 : Tensor) (T B : nat)
    (idx layer : nat) (st : loop_state) : Prop :=
  let L := num_layers self in
  let H := hidden_size self in
  exists G : list Tensor,
    length G = idx * L + layer /\
    Forall (cell_ok B H) G /\
    hidden_states st
    = mkTensor [T; L; B; H]
        (mjoin (data <$> G)
         ++ replicate ((T * L - (idx * L + layer)) * numel [B; H]) nan) /\
    written st = cells_before L idx layer /\
    forall t l, l < L -> t * L + l < idx * L + layer ->
      recurrence_at self X hidden_0 (grid_of L G) t l.

End Specification.

(** *** Vocabulary of the further properties *)

(** [x < 0] does not hold: [x] is zero, positive or NaN. *)
Definition not_negative (x : float) : Prop := PrimFloat.ltb x 0%float = false.

(** ** Sample models and inputs *)

(** The function the examples pass for [torch.tanh]. Every sample model is
    built with nonlinearity "relu" and never calls it. *)
Definition unused_tanh : float -> float := fun x => x.

Definition matrix (r c : nat) (d : list float) : Tensor := mkTensor [r; c] d.
Definition vector (d : list float) : Tensor := mkTensor [length d] d.

(** An [nn.RNN] with [input_size=3], [hidden_size=2], [num_layers=2],
    [nonlinearity="relu"], and the same model built with [bias=False]. *)
Definition sample_weights : list (string * Tensor) :=
  [("weight_ih_l0", matrix 2 3 [1; 0; 1; 0; 1; 0]%float);
   ("weight_hh_l0", matrix 2 2 [1; 2; 3; 4]%float);
   ("weight_ih_l1", matrix 2 2 [0; 1; 1; 0]%float);
   ("weight_hh_l1", matrix 2 2 [1; 0; 0; 1]%float)].

Definition sample_biases : list (string * Tensor) :=
  [("bias_ih_l0", vector [1; 2]%float);
   ("bias_hh_l0", vector [10; 20]%float);
   ("bias_ih_l1", vector [0; 1]%float);
   ("bias_hh_l1", vector [3; 0]%float)].

Definition sample_rnn : RNN := mkRNN 2 2 (sample_weights ++ sample_biases) "relu".
Definition sample_rnn_no_bias : RNN := mkRNN 2 2 sample_weights "relu".

Definition sample_model : MyRNN := MyRNN_init sample_rnn.
Definition sample_model_no_bias : MyRNN := MyRNN_init sample_rnn_no_bias.

(** Two time steps, a batch of one, three features. *)
Definition sample_X : Tensor := mkTensor [2; 1; 3] [1; 2; 3; 4; 5; 6]%float.
Definition sample_hidden_0 : Tensor := mkTensor [2; 1; 2] [1; 2; 3; 4]%float.
(** The same without its second row, and with a third row, which no layer
    of the model reads. *)
Definition sample_hidden_0_short : Tensor := mkTensor [1; 1; 2] [1; 2]%float.
Definition sample_hidden_0_extra : Tensor :=
  mkTensor [3; 1; 2] [1; 2; 3; 4; 5; 6]%float.
(** The same with three numbers per state, where the model has two. *)
Definition sample_hidden_0_thin : Tensor :=
  mkTensor [2; 1; 3] [1; 2; 3; 4; 5; 6]%float.
(** No time step at all; a NaN among the features; four features. *)
Definition sample_X_empty : Tensor := mkTensor [0; 1; 3] [].
Definition sample_X_nan : Tensor := mkTensor [2; 1; 3] [1; 2; 3; 4; nan; 6]%float.
Definition sample_X_wide : Tensor :=
  mkTensor [2; 1; 4] [1; 2; 3; 4; 5; 6; 7; 8]%float.

(** One layer, one unit, one feature, no bias: the recurrent weight is -2,
    the input weight 2. *)
Definition single_rnn : RNN :=
  mkRNN 1 1 [("weight_ih_l0", matrix 1 1 [2]%float);
             ("weight_hh_l0", matrix 1 1 [-2]%float)] "relu".
Definition single_model : MyRNN := MyRNN_init single_rnn.
(** The largest power of two of binary64, as input and as initial state. *)
Definition huge : float := 0x1p1023%float.
Definition huge_X : Tensor := mkTensor [1; 1; 1] [huge].
Definition huge_hidden_0 : Tensor := mkTensor [1; 1; 1] [huge].
Definition small_X : Tensor := mkTensor [3; 1; 1] [1; 2; 3]%float.
Definition small_hidden_0 : Tensor := mkTensor [1; 1; 1] [0]%float.

(** The sample input with another second time step, and its two time steps
    one at a time. *)
Definition sample_X_late : Tensor := mkTensor [2; 1; 3] [1; 2; 3; 7; 8; 9]%float.
Definition sample_X_first : Tensor := mkTensor [1; 1; 3] [1; 2; 3]%float.
Definition sample_X_second : Tensor := mkTensor [1; 1; 3] [4; 5; 6]%float.
(** What the sample model returns for the sample input, and for its first
    time step alone. *)
Definition sample_outs : Tensor := mkTensor [2; 1; 2] [41; 25; 271; 137]%float.
Definition sample_final : Tensor := mkTensor [2; 1; 2] [111; 227; 271; 137]%float.
Definition sample_outs_first : Tensor := mkTensor [1; 1; 2] [41; 25]%float.
Definition sample_final_first : Tensor := mkTensor [2; 1; 2] [20; 35; 41; 25]%float.
Definition sample_outs_second : Tensor := mkTensor [1; 1; 2] [271; 137]%float.
(** Two batches of two that agree on their first element only. *)
Definition pair_X : Tensor :=
  mkTensor [2; 2; 3] [1; 2; 3; 0; 1; 0; 4; 5; 6; 1; 1; 1]%float.
Definition pair_X_other : Tensor :=
  mkTensor [2; 2; 3] [1; 2; 3; 9; 9; 9; 4; 5; 6; 7; 7; 7]%float.
Definition pair_hidden_0 : Tensor :=
  mkTensor [2; 2; 2] [1; 2; 0; 0; 3; 4; 0; 0]%float.
Definition pair_hidden_0_other : Tensor :=
  mkTensor [2; 2; 2] [1; 2; 5; 5; 3; 4; 6; 6]%float.
(** A module whose parameters lack the recurrent weight of layer 0. *)
Definition sample_rnn_no_hh : RNN :=
  mkRNN 2 2 [("weight_ih_l0", matrix 2 3 [1; 0; 1; 0; 1; 0]%float)] "relu".
Definition sample_model_no_hh : MyRNN := MyRNN_init sample_rnn_no_hh.
(** A state and an input without a batch dimension. *)
Definition unbatched_hidden : Tensor := mkTensor [2] [1; 2]%float.
Definition unbatched_input : Tensor := mkTensor [3] [1; 2; 3]%float.

(** The sample module with parameters of a third layer and of a reverse
    direction among its own. *)
Definition sample_rnn_more : RNN :=
  mkRNN 2 2
    (sample_weights ++ sample_biases
     ++ [("weight_hh_l2", matrix 2 2 [5; 6; 7; 8]%float);
         ("weight_ih_l0_reverse", matrix 2 3 [1; 1; 1; 1; 1; 1]%float)])
    "relu".
Definition sample_model_more : MyRNN := MyRNN_init sample_rnn_more.

(** * Properties *)

(** ** The error monad and the loops *)

Lemma bind_Ok {A B} (r : result A) (k : A -> result B) (b : B) :
  bind r k = Ok b -> exists a, r = Ok a /\ k a = Ok b.
Proof. destruct r as [a|e]; simpl; [eauto | discriminate]. Qed.

Lemma for_each_ext {S} (xs : list nat) (f g : nat -> S -> result S) (s : S) :
  (forall x s', x ∈ xs -> f x s' = g x s') ->
  for_each xs f s = for_each xs g s.
Proof.
  revert s. induction xs as [|x xs IH]; intros s Hfg; simpl; [done|].
  rewrite Hfg by left. destruct (g x s) as [s'|e]; simpl; [|done].
  apply IH. intros y s'' Hy. apply Hfg. by right.
Qed.

(** ** Blocks of a row-major array *)

Section Blocks.

Implicit Types d v : list float.
Implicit Types ls : list (list float).

Lemma block_S i sz d : block (S i) sz d = block i sz (drop sz d).
Proof. unfold block. by rewrite drop_drop. Qed.

Lemma lookup_block i sz d j :
  j < sz -> block i sz d !! j = d !! (i * sz + j).
Proof. intros Hj. unfold block. by rewrite lookup_take_lt, lookup_drop. Qed.

Lemma length_block i sz d :
  (i + 1) * sz <= length d -> length (block i sz d) = sz.
Proof. intros Hd. unfold block. rewrite length_take, length_drop. lia. Qed.

Lemma length_block_le i sz d : length (block i sz d) <= sz.
Proof. unfold block. rewrite length_take. lia. Qed.

Lemma reshape_blocks n sz d :
  reshape (replicate n sz) d = (fun i => block i sz d) <$> seq 0 n.
Proof.
  revert d. induction n as [|n IH]; intros d; [done|].
  simpl. rewrite IH, <- fmap_S_seq, <- list_fmap_compose. f_equal.
  apply list_fmap_ext. intros _ i _. simpl. by rewrite block_S.
Qed.

Lemma bind_as_join {A} (f : A -> list float) (l : list A) :
  l ≫= f = mjoin (f <$> l).
Proof. induction l as [|x l IH]; [done|]. csimpl. by rewrite IH. Qed.

Lemma length_join_uniform sz ls :
  Forall (fun l => length l = sz) ls -> length (mjoin ls) = length ls * sz.
Proof. intros Hls. by rewrite length_join, (sum_list_fmap_same sz). Qed.

Lemma block_join i sz ls l rest :
  Forall (fun l => length l = sz) ls ->
  ls !! i = Some l ->
  block i sz (mjoin ls ++ rest) = l.
Proof.
  intros Hls. revert i. induction Hls as [|l0 ls Hl0 Hls IH]; intros i Hi.
  { by rewrite lookup_nil in Hi. }
  destruct i as [|i]; simpl in *.
  - injection Hi as ->. unfold block. rewrite drop_0, <- app_assoc.
    by apply take_app_length'.
  - rewrite block_S, <- app_assoc, drop_app_length' by done. by apply IH.
Qed.

Lemma block_bind_seq (f : nat -> list float) n sz t :
  (forall a, a < n -> length (f a) = sz) -> t < n ->
  block t sz (seq 0 n ≫= f) = f t.
Proof.
  intros Hf Ht. rewrite bind_as_join, <- (app_nil_r (mjoin _)).
  apply block_join.
  - apply Forall_fmap, Forall_forall. intros a Ha. simpl.
    apply Hf. apply elem_of_seq in Ha. lia.
  - by rewrite list_lookup_fmap, lookup_seq_lt.
Qed.

Lemma block_block i j n sz d :
  j < n -> block j sz (block i (n * sz) d) = block (i * n + j) sz d.
Proof.
  intros Hj. apply list_eq. intros a.
  destruct (decide (a < sz)) as [Ha|Ha].
  - assert ((j + 1) * sz <= n * sz) by (apply Nat.mul_le_mono_r; lia).
    rewrite (lookup_block j), (lookup_block (i * n + j)) by done.
    rewrite lookup_block by lia. f_equal. lia.
  - unfold block at 1 3. by rewrite !lookup_take_ge by lia.
Qed.

Lemma inserts_after_prefix (p v : list float) off r x :
  length p = off ->
  list_inserts off v (p ++ replicate (length v + r) x) = (p ++ v) ++ replicate r x.
Proof.
  intros <-. rewrite <- (Nat.add_0_r (length p)), list_inserts_app_r.
  rewrite replicate_add, list_inserts_0_r by by rewrite length_replicate.
  by rewrite app_assoc.
Qed.

Lemma existsb_join {A} (p : A -> bool) (ls : list (list A)) :
  existsb p (mjoin ls) = existsb (existsb p) ls.
Proof.
  induction ls as [|l ls IH]; [done|]. simpl. by rewrite existsb_app, IH.
Qed.

End Blocks.

(** ** Indexing *)

Lemma norm_index_nat i n : i < n -> norm_index (Z.of_nat i) n = Ok i.
Proof.
  intros Hi. unfold norm_index. rewrite decide_True by lia.
  by rewrite Nat2Z.id.
Qed.

Lemma norm_index_last n : 0 < n -> norm_index (-1) n = Ok (n - 1).
Proof.
  intros Hn. unfold norm_index.
  rewrite decide_False, decide_True by lia. f_equal. lia.
Qed.

Lemma norm_index_empty i : norm_index i 0 = Raise IndexError.
Proof. unfold norm_index. by rewrite !decide_False by lia. Qed.

Lemma select0_nat n s d i :
  i < n ->
  select0 (mkTensor (n :: s) d) (Z.of_nat i) = Ok (mkTensor s (block i (numel s) d)).
Proof. intros Hi. unfold select0. simpl. by rewrite norm_index_nat. Qed.

(** ** Tables: row-major arrays given by a function of row and column *)

Section Tables.

Implicit Types d : list float.
Implicit Types F G : nat -> nat -> float.

Lemma length_table n m F : length (table n m F) = n * m.
Proof.
  unfold table. rewrite bind_as_join, (length_join_uniform m).
  - by rewrite length_fmap, length_seq.
  - apply Forall_fmap, Forall_forall. intros i _. simpl.
    by rewrite length_fmap, length_seq.
Qed.

Lemma table_ext n m F G :
  (forall i j, i < n -> j < m -> F i j = G i j) -> table n m F = table n m G.
Proof.
  intros HFG. unfold table. rewrite !bind_as_join. f_equal.
  apply list_fmap_ext. intros ? i [-> Hi]%lookup_seq.
  apply list_fmap_ext. intros ? j [-> Hj]%lookup_seq. by apply HFG.
Qed.

Lemma lookup_table n m F i j :
  i < n -> j < m -> table n m F !! (i * m + j) = Some (F i j).
Proof.
  intros Hi Hj. unfold table. rewrite bind_as_join.
  apply (join_lookup_Some_same_length' m); [|done|].
  - apply Forall_fmap, Forall_forall. intros a _. simpl.
    by rewrite length_fmap, length_seq.
  - exists (F i <$> seq 0 m). by rewrite !list_lookup_fmap, !lookup_seq_lt.
Qed.

Lemma fmap_table (g : float -> float) n m F :
  g <$> table n m F = table n m (fun i j => g (F i j)).
Proof.
  unfold table. generalize (seq 0 n). intros l.
  induction l as [|x l IH]; [done|].
  rewrite !bind_cons, fmap_app, IH. f_equal.
  by rewrite <- list_fmap_compose.
Qed.

Lemma zip_with_table (f : float -> float -> float) n m F G :
  zip_with f (table n m F) (table n m G) = table n m (fun i j => f (F i j) (G i j)).
Proof.
  unfold table. generalize (seq 0 n). intros l.
  induction l as [|x l IH]; [done|].
  rewrite !bind_cons, zip_with_app, IH by by rewrite !length_fmap.
  f_equal. by rewrite zip_with_fmap_l, zip_with_fmap_r, zip_with_diag.
Qed.

Lemma row_as_block c d i :
  (i + 1) * c <= length d ->
  (fun j => d !!! (i * c + j)) <$> seq 0 c = block i c d.
Proof.
  intros Hd. apply list_eq. intros j.
  destruct (decide (j < c)) as [Hj|Hj].
  - rewrite lookup_block, list_lookup_fmap, lookup_seq_lt by done. simpl.
    symmetry. apply list_lookup_lookup_total_lt. lia.
  - rewrite !lookup_ge_None_2; [done| |].
    + pose proof (length_block_le i c d). lia.
    + rewrite length_fmap, length_seq. lia.
Qed.

Lemma join_blocks n sz d :
  length d = n * sz -> seq 0 n ≫= (fun i => block i sz d) = d.
Proof.
  intros Hd. rewrite bind_as_join, <- reshape_blocks.
  apply join_reshape. by rewrite sum_list_replicate.
Qed.

Lemma table_of_list r c d :
  length d = r * c -> table r c (fun i j => d !!! (i * c + j)) = d.
Proof.
  intros Hd. unfold table.
  transitivity (seq 0 r ≫= (fun i => block i c d)); [|by apply join_blocks].
  rewrite !bind_as_join. f_equal.
  apply list_fmap_ext. intros ? i [-> Hi]%lookup_seq. simpl.
  apply row_as_block. rewrite Hd. apply Nat.mul_le_mono_r. lia.
Qed.

Lemma transpose_data_table r c d :
  transpose_data r c d = table c r (fun j i => d !!! (i * c + j)).
Proof. done. Qed.

Lemma transpose_data_involutive r c d :
  length d = r * c -> transpose_data c r (transpose_data r c d) = d.
Proof.
  intros Hd. rewrite (transpose_data_table c r).
  transitivity (table r c (fun i j => d !!! (i * c + j)));
    [|by apply table_of_list].
  apply table_ext. intros i j Hi Hj.
  apply list_lookup_total_correct.
  by rewrite transpose_data_table, lookup_table.
Qed.

Lemma join_replicate_table n m d :
  length d = m -> mjoin (replicate n d) = table n m (fun _ j => d !!! j).
Proof.
  intros Hd. unfold table.
  assert ((fun j => d !!! j) <$> seq 0 m = d) as ->.
  { transitivity (block 0 m d); [by apply (row_as_block m d 0); lia|].
    unfold block. rewrite drop_0. apply take_ge. lia. }
  generalize 0. induction n as [|n IH]; intros a; [done|].
  csimpl. by rewrite (IH (S a)).
Qed.

End Tables.

(** ** Broadcasting and the matrix product at conformant shapes *)

Lemma numel_cons a s : numel (a :: s) = a * numel s.
Proof. done. Qed.

Lemma numel_nil : numel [] = 1.
Proof. done. Qed.

Lemma numel_app s1 s2 : numel (s1 ++ s2) = numel s1 * numel s2.
Proof.
  induction s1 as [|a s1 IH].
  - change (numel s2 = 1 * numel s2). lia.
  - change (numel (a :: (s1 ++ s2)) = numel (a :: s1) * numel s2).
    rewrite !numel_cons, IH. lia.
Qed.

Lemma broadcast_rev_same a : broadcast_rev a a = Some a.
Proof.
  induction a as [|x a IH]; [done|]. simpl.
  by rewrite decide_True, IH by done.
Qed.

Lemma broadcast_shapes_same s : broadcast_shapes s s = Some s.
Proof.
  unfold broadcast_shapes. rewrite broadcast_rev_same. simpl.
  by rewrite reverse_involutive.
Qed.

Lemma pad_shape_same s : pad_shape s (length s) = s.
Proof. unfold pad_shape. by rewrite Nat.sub_diag. Qed.

Lemma expand_data_cons a from b to d :
  expand_data (a :: from) (b :: to) d
  = if decide (a = b)
    then seq 0 a ≫= (fun i => expand_data from to (block i (numel from) d))
    else mjoin (replicate b (expand_data from to (block 0 (numel from) d))).
Proof. done. Qed.

Arguments expand_data : simpl never.

Lemma expand_data_same s d : length d = numel s -> expand_data s s d = d.
Proof.
  revert d. induction s as [|a s IH]; intros d Hd; [done|].
  rewrite expand_data_cons, decide_True by done. rewrite numel_cons in Hd.
  transitivity (seq 0 a ≫= (fun i => block i (numel s) d));
    [|by apply join_blocks].
  rewrite !bind_as_join. f_equal.
  apply list_fmap_ext. intros ? i [-> Hi]%lookup_seq. simpl.
  apply IH, length_block. rewrite Hd. apply Nat.mul_le_mono_r. lia.
Qed.

Lemma expand_to_same s d :
  length d = numel s -> expand_to (mkTensor s d) s = d.
Proof.
  intros Hd. unfold expand_to. simpl. rewrite pad_shape_same.
  by apply expand_data_same.
Qed.

Lemma torch_add_same_shape s d1 d2 :
  length d1 = numel s -> length d2 = numel s ->
  torch_add (mkTensor s d1) (mkTensor s d2)
  = Ok (mkTensor s (zip_with PrimFloat.add d1 d2)).
Proof.
  intros H1 H2. unfold torch_add. simpl. rewrite broadcast_shapes_same.
  by rewrite !expand_to_same.
Qed.

(** A vector of [H] numbers added to [B] rows of [H] numbers. *)
Lemma broadcast_shapes_row B H : broadcast_shapes [B; H] [H] = Some [B; H].
Proof.
  unfold broadcast_shapes. cbn. by rewrite decide_True by done.
Qed.

Lemma expand_to_row B H d :
  length d = H -> expand_to (mkTensor [H] d) [B; H] = mjoin (replicate B d).
Proof.
  intros Hd. unfold expand_to, pad_shape.
  cbn [length Nat.sub replicate app shape data]. rewrite expand_data_cons.
  assert (expand_data [H] [H] (block 0 (numel [H]) d) = d) as Hrow.
  { assert (block 0 (numel [H]) d = d) as ->.
    { unfold block. rewrite drop_0. apply take_ge.
      rewrite numel_cons, numel_nil. lia. }
    apply expand_data_same. rewrite numel_cons, numel_nil. lia. }
  destruct (decide (1 = B)) as [<-|_].
  - csimpl. by rewrite Hrow.
  - by rewrite Hrow.
Qed.

Section Step.

Variable tanh : float -> float.

Lemma add_operand_table B H F b :
  bias_conformant H b ->
  add_operand (mkTensor [B; H] (table B H F)) b
  = Ok (mkTensor [B; H] (table B H (fun i j => PrimFloat.add (F i j) (bias_at b j)))).
Proof.
  destruct b as [[s d]|]; simpl.
  - intros [-> Hd]. unfold wf in Hd. simpl in Hd.
    rewrite numel_cons, numel_nil, Nat.mul_1_r in Hd.
    unfold torch_add. simpl. rewrite broadcast_shapes_row.
    rewrite expand_to_same, expand_to_row by
      (try done; rewrite length_table, !numel_cons, numel_nil; lia).
    simpl. by rewrite (join_replicate_table B H), zip_with_table.
  - intros _. unfold add_scalar. simpl. f_equal. f_equal. apply fmap_table.
Qed.

Lemma matmul_transpose_table a w B H K :
  shape a = [B; K] -> shape w = [H; K] -> wf w ->
  exists w_T,
    attr_T (Some w) = Ok w_T /\
    matmul a w_T
    = Ok (mkTensor [B; H]
            (table B H (fun b h => dot (block b K (data a)) (block h K (data w))))).
Proof.
  intros Ha Hw Hwf. unfold wf in Hwf.
  rewrite Hw, !numel_cons, numel_nil, Nat.mul_1_r in Hwf.
  unfold attr_T, transpose. rewrite Hw. eexists; split; [done|].
  unfold matmul. simpl. rewrite Ha. cbn [reverse rev_append].
  rewrite decide_True by done. cbn [reverse rev_append app]. f_equal. f_equal.
  unfold columns. rewrite transpose_data_involutive by done.
  rewrite !reshape_blocks, numel_cons, numel_nil, Nat.mul_1_r.
  unfold table. rewrite list_fmap_bind. rewrite !bind_as_join. f_equal.
  apply list_fmap_ext. intros _ b _. simpl.
  by rewrite <- list_fmap_compose.
Qed.

Lemma compute_new_hidden_state_formula B H D prev inp w_hh b_hh w_ih b_ih act :
  shape prev = [B; H] -> shape inp = [B; D] ->
  shape w_hh = [H; H] -> wf w_hh -> shape w_ih = [H; D] -> wf w_ih ->
  bias_conformant H b_hh -> bias_conformant H b_ih ->
  compute_new_hidden_state tanh prev inp (Some w_hh) b_hh (Some w_ih) b_ih act
  = Ok (new_hidden_formula tanh B H D prev inp w_hh b_hh w_ih b_ih act).
Proof.
  intros Hprev Hinp Hwhh Hwfhh Hwih Hwfih Hbhh Hbih.
  unfold compute_new_hidden_state.
  destruct (matmul_transpose_table prev w_hh B H H) as (whh_T & E1 & E2);
    [done..|]. rewrite E1. cbn [bind]. rewrite E2. cbn [bind].
  rewrite add_operand_table by done. cbn [bind].
  destruct (matmul_transpose_table inp w_ih B H D) as (wih_T & E3 & E4);
    [done..|]. rewrite E3. cbn [bind]. rewrite E4. cbn [bind].
  rewrite torch_add_same_shape, zip_with_table
    by (rewrite length_table, !numel_cons, numel_nil; lia).
  cbn [bind]. rewrite add_operand_table by done. cbn [bind].
  unfold call, tmap, new_hidden_formula. simpl. by rewrite fmap_table.
Qed.

End Step.

(** ** The loops of [forward] at conformant shapes *)

Lemma for_each_seq_inv {St} (Inv : nat -> St -> Prop)
    (body : nat -> St -> result St) n s :
  Inv 0 s ->
  (forall i s, i < n -> Inv i s -> exists s', body i s = Ok s' /\ Inv (S i) s') ->
  exists s', for_each (seq 0 n) body s = Ok s' /\ Inv n s'.
Proof.
  intros H0 Hstep.
  assert (forall m a s0, a + m = n -> Inv a s0 ->
            exists s', for_each (seq a m) body s0 = Ok s' /\ Inv n s') as Hgen.
  { induction m as [|m IH]; intros a s0 Ham Ha.
    - exists s0. split; [done|]. by replace n with a by lia.
    - simpl. destruct (Hstep a s0) as (s1 & -> & H1); [lia|done|].
      simpl. apply IH; [lia|done]. }
  by apply (Hgen n 0).
Qed.

Lemma wfb_wf t : wfb t = true -> wf t.
Proof. unfold wfb, wf. apply Nat.eqb_eq. Qed.

Lemma weight_okb_spec w s :
  weight_okb w s = true -> exists t, w = Some t /\ shape t = s /\ wf t.
Proof.
  destruct w as [t|]; simpl; [|done].
  intros [Hs Hwf]%andb_prop. exists t.
  split_and!; [done|by apply bool_decide_eq_true in Hs|by apply wfb_wf].
Qed.

Lemma bias_okb_spec self key H :
  bias_okb (get self key) H = true -> bias_conformant H (get_or_0 self key).
Proof.
  unfold get, get_or_0. destruct (params self !! key) as [t|]; simpl; [|done].
  intros [Hs Hwf]%andb_prop.
  split; [by apply bool_decide_eq_true in Hs|by apply wfb_wf].
Qed.

Lemma cell_ok_data B H c : cell_ok B H c -> mkTensor [B; H] (data c) = c.
Proof. destruct c as [s d]. intros [Hs _]. simpl in *. by subst. Qed.

Section Grid.

Variables (T L B H : nat).

Implicit Types G : list Tensor.

Lemma grid_data_uniform G :
  Forall (cell_ok B H) G ->
  Forall (fun l => length l = numel [B; H]) (data <$> G).
Proof.
  intros HG. apply Forall_fmap. eapply Forall_impl; [done|].
  intros c [Hs Hwf]. simpl. unfold wf in Hwf. by rewrite Hs in Hwf.
Qed.

Lemma length_grid_data G :
  Forall (cell_ok B H) G ->
  length (mjoin (data <$> G)) = length G * numel [B; H].
Proof.
  intros HG. rewrite (length_join_uniform (numel [B; H])), length_fmap;
    [done|by apply grid_data_uniform].
Qed.

Lemma grid_block G rest k :
  Forall (cell_ok B H) G -> k < length G ->
  mkTensor [B; H] (block k (numel [B; H]) (mjoin (data <$> G) ++ rest)) = G !!! k.
Proof.
  intros HG Hk. destruct (lookup_lt_is_Some_2 G k Hk) as [c Hc].
  rewrite (list_lookup_total_correct _ _ _ Hc).
  rewrite (block_join _ _ _ (data c)).
  - apply (cell_ok_data B H). by eapply Forall_lookup_1.
  - by apply grid_data_uniform.
  - by rewrite list_lookup_fmap, Hc.
Qed.

Lemma cell_index_lt t l : t < T -> l < L -> t * L + l < T * L.
Proof.
  intros Ht Hl. assert ((t + 1) * L <= T * L) by (apply Nat.mul_le_mono_r; lia).
  lia.
Qed.

Lemma index2_grid G rest t l :
  Forall (cell_ok B H) G -> t < T -> l < L -> t * L + l < length G ->
  index2 (mkTensor [T; L; B; H] (mjoin (data <$> G) ++ rest))
    (Z.of_nat t) (Z.of_nat l)
  = Ok (G !!! (t * L + l)).
Proof.
  intros HG Ht Hl Hk. unfold index2.
  rewrite select0_nat by done. cbn [bind].
  rewrite select0_nat by done. f_equal.
  rewrite (numel_cons L [B; H]), block_block by done. by apply grid_block.
Qed.

Lemma setitem2_grid G c t l x :
  Forall (cell_ok B H) G -> cell_ok B H c ->
  t < T -> l < L -> length G = t * L + l ->
  setitem2
    (mkTensor [T; L; B; H]
       (mjoin (data <$> G) ++ replicate ((T * L - length G) * numel [B; H]) x))
    (Z.of_nat t) (Z.of_nat l) c
  = Ok (mkTensor [T; L; B; H]
          (mjoin (data <$> (G ++ [c]))
           ++ replicate ((T * L - length (G ++ [c])) * numel [B; H]) x)).
Proof.
  intros HG Hc Ht Hl HlenG. pose proof (cell_index_lt t l Ht Hl) as Hlt.
  unfold setitem2. cbn [shape data].
  rewrite !norm_index_nat by done. cbn [bind].
  destruct Hc as [Hs Hwf]. unfold wf in Hwf. rewrite Hs in Hwf.
  rewrite Hs, decide_True by apply broadcast_shapes_same.
  f_equal. f_equal.
  assert (expand_to c [B; H] = data c) as ->.
  { destruct c as [s d]. simpl in *. subst s. by apply expand_to_same. }
  rewrite length_app, fmap_app, join_app. simpl. rewrite app_nil_r.
  replace ((T * L - length G) * numel [B; H])
    with (length (data c) + (T * L - (length G + 1)) * numel [B; H]) by nia.
  apply inserts_after_prefix.
  rewrite length_grid_data by done. by rewrite HlenG.
Qed.

End Grid.

Section Loops.

Variable tanh : float -> float.
Variables (self : MyRNN) (X h0 : Tensor) (T B D Lh : nat).

Local Abbreviation L := (num_layers self).
Local Abbreviation H := (hidden_size self).

Hypothesis HX : shape X = [T; B; D].
Hypothesis Hh0 : shape h0 = [Lh; B; H].
Hypothesis Hparams : params_okb self D = true.

Lemma layer_step_conformant l prev inp :
  l < L -> shape prev = [B; H] ->
  shape inp = [B; if decide (l = 0) then D else H] ->
  exists c, layer_step tanh self l prev inp = Ok c /\ cell_ok B H c.
Proof using All.
  intros Hl Hprev Hinp.
  assert (layer_okb self D l = true) as Hok.
  { unfold params_okb in Hparams. rewrite forallb_forall in Hparams.
    apply Hparams, in_seq. lia. }
  unfold layer_okb in Hok.
  apply andb_prop in Hok as [Hok Hbih]. apply andb_prop in Hok as [Hok Hbhh].
  apply andb_prop in Hok as [Hwhh Hwih].
  apply weight_okb_spec in Hwhh as (whh & Ehh & Hshh & Hwfhh).
  apply weight_okb_spec in Hwih as (wih & Eih & Hsih & Hwfih).
  apply bias_okb_spec in Hbhh. apply bias_okb_spec in Hbih.
  unfold layer_step. rewrite Ehh, Eih.
  eexists. split.
  - by apply (compute_new_hidden_state_formula tanh B H
               (if decide (l = 0) then D else H)).
  - split; [done|]. unfold wf. simpl.
    rewrite length_table, !numel_cons, numel_nil. lia.
Qed.

Lemma cell_update_reads idx layer st prev inp c hs' :
  (if decide (idx = 0) then select0 h0 (Z.of_nat layer)
   else index2 (hidden_states st) (Z.of_nat idx - 1) (Z.of_nat layer)) = Ok prev ->
  (if decide (layer = 0) then select0 X (Z.of_nat idx)
   else index2 (hidden_states st) (Z.of_nat idx) (Z.of_nat layer - 1)) = Ok inp ->
  layer_step tanh self layer prev inp = Ok c ->
  setitem2 (hidden_states st) (Z.of_nat idx) (Z.of_nat layer) c = Ok hs' ->
  cell_update tanh self X h0 idx layer st
  = Ok (mkLoop hs' (written st ++ [(idx, layer)])).
Proof using All.
  intros Hprev Hinp Hc Hset. unfold cell_update.
  destruct (decide (idx = 0)) as [->|Hidx].
  - cbn [bind]. rewrite Hinp. cbn [bind]. rewrite Hprev. cbn [bind].
    fold (layer_step tanh self layer prev inp). rewrite Hc. cbn [bind].
    by rewrite Hset.
  - unfold index2 in Hprev. apply bind_Ok in Hprev as (row & -> & Hprev).
    cbn [bind]. rewrite Hinp. cbn [bind]. rewrite Hprev. cbn [bind].
    fold (layer_step tanh self layer prev inp). rewrite Hc. cbn [bind].
    by rewrite Hset.
Qed.

Lemma recurrence_at_ext (grid grid' : nat -> nat -> Tensor) t l :
  (t <> 0 -> grid (t - 1) l = grid' (t - 1) l) ->
  (l <> 0 -> grid t (l - 1) = grid' t (l - 1)) ->
  grid t l = grid' t l ->
  recurrence_at tanh self X h0 grid t l ->
  recurrence_at tanh self X h0 grid' t l.
Proof using All.
  intros H1 H2 H3 (prev & inp & Hp & Hi & Hs). exists prev, inp.
  rewrite <- H3. split_and!; [| |done].
  - destruct (decide (t = 0)); [done|]. by rewrite <- H1.
  - destruct (decide (l = 0)); [done|]. by rewrite <- H2.
Qed.

Lemma cell_update_inv idx layer st :
  idx < T -> layer < L -> (idx = 0 -> layer < Lh) ->
  loop_inv tanh self X h0 T B idx layer st ->
  exists st',
    cell_update tanh self X h0 idx layer st = Ok st' /\
    loop_inv tanh self X h0 T B idx (S layer) st'.
Proof using All.
  intros Hidx Hlayer Hfirst (G & HlenG & HG & Hhs & Hlog & Hrec).
  assert (exists prev,
    (if decide (idx = 0) then select0 h0 (Z.of_nat layer)
     else index2 (hidden_states st) (Z.of_nat idx - 1) (Z.of_nat layer)) = Ok prev
    /\ (if decide (idx = 0) then select0 h0 (Z.of_nat layer)
        else Ok (grid_of L G (idx - 1) layer)) = Ok prev
    /\ shape prev = [B; H]) as (prev & Hprev & Hprev' & Hsprev).
  { destruct (decide (idx = 0)) as [->|Hne].
    - destruct h0 as [s d]. simpl in Hh0. subst s.
      rewrite select0_nat by auto. eexists. split_and!; done.
    - exists (grid_of L G (idx - 1) layer).
      assert ((idx - 1) * L + layer < length G) as Hk.
      { rewrite HlenG. destruct idx as [|i]; [done|].
        simpl. rewrite Nat.sub_0_r. lia. }
      split_and!; [|done|].
      + rewrite Hhs.
        replace (Z.of_nat idx - 1)%Z with (Z.of_nat (idx - 1)) by lia.
        apply index2_grid; [done|lia|done|done].
      + by apply (Forall_lookup_total_1 _ _ _ HG). }
  assert (exists inp,
    (if decide (layer = 0) then select0 X (Z.of_nat idx)
     else index2 (hidden_states st) (Z.of_nat idx) (Z.of_nat layer - 1)) = Ok inp
    /\ (if decide (layer = 0) then select0 X (Z.of_nat idx)
        else Ok (grid_of L G idx (layer - 1))) = Ok inp
    /\ shape inp = [B; if decide (layer = 0) then D else H])
    as (inp & Hinp & Hinp' & Hsinp).
  { destruct (decide (layer = 0)) as [->|Hne].
    - destruct X as [s d]. simpl in HX. subst s.
      rewrite select0_nat by lia. eexists. split_and!; done.
    - exists (grid_of L G idx (layer - 1)).
      assert (idx * L + (layer - 1) < length G) as Hk by lia.
      split_and!; [|done|].
      + rewrite Hhs.
        replace (Z.of_nat layer - 1)%Z with (Z.of_nat (layer - 1)) by lia.
        apply index2_grid; [done|done|lia|done].
      + by apply (Forall_lookup_total_1 _ _ _ HG). }
  destruct (layer_step_conformant layer prev inp) as (c & Hc & Hcok);
    [done..|].
  rewrite <- HlenG in Hhs.
  pose proof (setitem2_grid T L B H G c idx layer nan HG Hcok Hidx Hlayer HlenG)
    as Hset.
  rewrite <- Hhs in Hset.
  eexists. split; [by eapply cell_update_reads|].
  exists (G ++ [c]). split_and!.
  - rewrite length_app. simpl. lia.
  - apply Forall_app. split; [done|]. by apply Forall_singleton.
  - simpl. do 3 f_equal. rewrite length_app, HlenG. simpl. lia.
  - simpl. rewrite Hlog. unfold cells_before.
    by rewrite seq_S, fmap_app, app_assoc.
  - intros t l Hl Hlt.
    destruct (decide (t * L + l < idx * L + layer)) as [Hold|Hnew].
    + apply (recurrence_at_ext (grid_of L G)); [..|by apply Hrec];
        unfold grid_of; intros; symmetry; apply lookup_total_app_l.
      * destruct t as [|t']; [done|]. simpl. rewrite Nat.sub_0_r. lia.
      * lia.
      * lia.
    + assert (t * L + l = idx * L + layer) as Heq by lia.
      apply Nat.mul_split_l in Heq as [-> ->]; [|done..].
      exists prev, inp. split_and!.
      * destruct (decide (idx = 0)); [done|]. rewrite <- Hprev'. f_equal.
        unfold grid_of. apply lookup_total_app_l.
        destruct idx as [|i]; [done|]. simpl. rewrite Nat.sub_0_r. lia.
      * destruct (decide (layer = 0)); [done|]. rewrite <- Hinp'. f_equal.
        unfold grid_of. apply lookup_total_app_l. lia.
      * rewrite Hc. f_equal. unfold grid_of. symmetry.
        apply list_lookup_total_middle. lia.
Qed.

Lemma loop_inv_next_row idx st :
  loop_inv tanh self X h0 T B idx L st ->
  loop_inv tanh self X h0 T B (S idx) 0 st.
Proof using All.
  intros (G & HlenG & HG & Hhs & Hlog & Hrec). exists G. split_and!.
  - rewrite HlenG. simpl. lia.
  - done.
  - rewrite Hhs. do 3 f_equal. simpl. lia.
  - rewrite Hlog. unfold cells_before.
    rewrite seq_S, bind_app. simpl. by rewrite !app_nil_r.
  - intros t l Hl Hlt. apply Hrec; [done|]. simpl in Hlt. lia.
Qed.

Lemma loop_inv_init :
  loop_inv tanh self X h0 T B 0 0
    (mkLoop (fill (torch_zeros [T; L; B; H]) nan) []).
Proof using All.
  exists []. split_and!; [done|done| |done|intros; lia].
  unfold fill, torch_zeros. simpl. f_equal.
  rewrite length_replicate, !(numel_cons _ (_ :: _)). f_equal. lia.
Qed.

Lemma forward_loops_conformant :
  L <= Lh ->
  exists G st,
    forward_loops tanh self X (Some h0) = Ok st /\
    length G = T * L /\
    Forall (cell_ok B H) G /\
    hidden_states st = mkTensor [T; L; B; H] (mjoin (data <$> G)) /\
    written st = cells_before L T 0 /\
    recurrence tanh self X h0 T (grid_of L G).
Proof using All.
  intros HLh.
  unfold forward_loops, shape_at. rewrite HX. cbn [lookup list_lookup bind].
  destruct (for_each_seq_inv (fun idx => loop_inv tanh self X h0 T B idx 0)
    (fun idx => for_each (seq 0 L)
       (fun layer => cell_update tanh self X h0 idx layer)) T
    (mkLoop (fill (torch_zeros [T; L; B; H]) nan) []))
    as (st & Hst & G & HlenG & HG & Hhs & Hlog & Hrec).
  - apply loop_inv_init.
  - intros idx st Hidx Hinv.
    destruct (for_each_seq_inv (fun layer => loop_inv tanh self X h0 T B idx layer)
      (fun layer => cell_update tanh self X h0 idx layer) L st Hinv)
      as (st' & Hst' & Hinv').
    + intros layer st0 Hlayer. apply cell_update_inv; [done|done|lia].
    + exists st'. split; [done|]. by apply loop_inv_next_row.
  - exists G, st. rewrite Nat.add_0_r in HlenG, Hhs.
    rewrite Nat.sub_diag in Hhs. simpl in Hhs. rewrite app_nil_r in Hhs.
    split_and!; [done..|].
    intros t l Ht Hl. apply Hrec; [done|].
    pose proof (cell_index_lt T L t l Ht Hl). lia.
Qed.

End Loops.

(** ** The two views returned by [forward] *)

Section Views.

Variables (T L B H : nat).

Implicit Types G : list Tensor.

Lemma isnan_any_grid G :
  isnan_any (mkTensor [T; L; B; H] (mjoin (data <$> G))) = existsb isnan_any G.
Proof.
  unfold isnan_any at 1. cbn [data]. rewrite existsb_join.
  induction G as [|c G IH]; [done|]. csimpl. by rewrite IH.
Qed.

Lemma grid_last_layer G :
  Forall (cell_ok B H) G -> length G = T * L -> 0 < L ->
  exists outs,
    select1 (mkTensor [T; L; B; H] (mjoin (data <$> G))) (-1) = Ok outs /\
    shape outs = [T; B; H] /\
    forall t, t < T -> select0 outs (Z.of_nat t) = Ok (grid_of L G t (L - 1)).
Proof.
  intros HG HlenG HL. unfold select1. cbn [shape data].
  rewrite norm_index_last by done. cbn [bind].
  eexists. split_and!; [done..|].
  intros t Ht. rewrite select0_nat by done. f_equal.
  rewrite (block_bind_seq _ T (numel [B; H]) t); [|intros a Ha|done].
  - rewrite <- (app_nil_r (mjoin _)). unfold grid_of.
    apply grid_block; [done|].
    rewrite HlenG. apply cell_index_lt; lia.
  - apply length_block. rewrite (length_grid_data B H), HlenG by done.
    apply Nat.mul_le_mono_r.
    pose proof (cell_index_lt T L a (L - 1) Ha). lia.
Qed.

Lemma grid_last_step G :
  Forall (cell_ok B H) G -> length G = T * L -> 0 < T ->
  exists final,
    select0 (mkTensor [T; L; B; H] (mjoin (data <$> G))) (-1) = Ok final /\
    shape final = [L; B; H] /\
    forall l, l < L -> select0 final (Z.of_nat l) = Ok (grid_of L G (T - 1) l).
Proof.
  intros HG HlenG HT. unfold select0 at 1. cbn [shape data].
  rewrite norm_index_last by done. cbn [bind].
  eexists. split_and!; [done..|].
  intros l Hl. rewrite select0_nat by done. f_equal.
  rewrite (numel_cons L [B; H]), block_block by done.
  rewrite <- (app_nil_r (mjoin _)). unfold grid_of.
  apply grid_block; [done|].
  rewrite HlenG. apply cell_index_lt; lia.
Qed.

End Views.

(** ** What the loops keep of the grid whatever the operands *)

Lemma for_each_preserves {St} (P : St -> Prop) xs
    (body : nat -> St -> result St) s s' :
  (forall x s0 s1, body x s0 = Ok s1 -> P s0 -> P s1) ->
  P s -> for_each xs body s = Ok s' -> P s'.
Proof.
  intros Hbody. revert s. induction xs as [|x xs IH]; intros s Hs Hrun.
  - by injection Hrun as <-.
  - simpl in Hrun. apply bind_Ok in Hrun as (s1 & H1 & Hrun). eauto.
Qed.

Lemma setitem2_shape t i j v t' :
  setitem2 t i j v = Ok t' ->
  shape t' = shape t /\ length (data t') = length (data t).
Proof.
  unfold setitem2. destruct (shape t) as [|n0 [|n1 s]]; [done..|].
  intros (a & _ & Hset)%bind_Ok. apply bind_Ok in Hset as (b & _ & Hset).
  case_decide; [|done]. injection Hset as <-. simpl.
  by rewrite length_inserts.
Qed.

Lemma cell_update_shape tanh self X h0 idx layer s st st' :
  cell_update tanh self X h0 idx layer st = Ok st' ->
  grid_shape s st -> grid_shape s st'.
Proof.
  unfold cell_update. intros Hrun [Hs Hlen].
  do 4 apply bind_Ok in Hrun as (? & _ & Hrun).
  apply bind_Ok in Hrun as (hs' & [Hs' Hlen']%setitem2_shape & Hrun).
  injection Hrun as <-. split; simpl; congruence.
Qed.

Lemma forward_loops_shape tanh self X hidden_0 st :
  forward_loops tanh self X hidden_0 = Ok st ->
  exists T B,
    shape_at X 0 = Ok T /\ shape_at X 1 = Ok B /\
    grid_shape [T; num_layers self; B; hidden_size self] st.
Proof.
  unfold forward_loops. intros (T & HT & Hrun)%bind_Ok.
  apply bind_Ok in Hrun as (B & HB & Hrun). exists T, B. split_and!; [done..|].
  eapply for_each_preserves; [|..|exact Hrun].
  - intros idx s0 s1 Hrow Hs0. simpl in Hrow.
    eapply for_each_preserves; [|exact Hs0|exact Hrow].
    intros layer s2 s3 Hcell. by eapply cell_update_shape.
  - split; simpl; [done|]. by rewrite !length_replicate.
Qed.

Lemma single_layer_views T B H d outs final :
  length d = numel [T; 1; B; H] ->
  select1 (mkTensor [T; 1; B; H] d) (-1) = Ok outs ->
  select0 (mkTensor [T; 1; B; H] d) (-1) = Ok final ->
  let c := mkTensor [B; H] (block (T - 1) (numel [B; H]) d) in
  select0 final 0 = Ok c /\
  select0 outs (Z.of_nat T - 1) = Ok c /\
  select0 outs (-1) = Ok c.
Proof.
  intros Hd Houts Hfinal c.
  destruct (decide (T = 0)) as [->|HT].
  { unfold select0 in Hfinal. cbn [shape data] in Hfinal.
    by rewrite norm_index_empty in Hfinal. }
  unfold select1 in Houts. cbn [shape data] in Houts.
  rewrite norm_index_last in Houts by lia. injection Houts as <-.
  unfold select0 in Hfinal. cbn [shape data] in Hfinal.
  rewrite norm_index_last in Hfinal by lia. injection Hfinal as <-.
  assert (forall a, a < T ->
    length (block (a * 1 + (1 - 1)) (numel [B; H]) d) = numel [B; H]) as Hlen.
  { intros a Ha. apply length_block. rewrite Hd, !(numel_cons _ (_ :: _ :: _)).
    assert ((a + 1) * numel [B; H] <= T * numel [B; H])
      by (apply Nat.mul_le_mono_r; lia). lia. }
  assert (select0
    (mkTensor [T; B; H]
       (seq 0 T ≫= (fun a => block (a * 1 + (1 - 1)) (numel [B; H]) d)))
    (Z.of_nat (T - 1)) = Ok c) as Hlast.
  { rewrite select0_nat by lia. unfold c. do 2 f_equal.
    rewrite (block_bind_seq _ T (numel [B; H])) by (done || lia).
    f_equal. lia. }
  split_and!.
  - rewrite (select0_nat 1 [B; H] _ 0) by lia. unfold c. do 2 f_equal.
    rewrite (numel_cons 1 [B; H]), block_block by lia. f_equal. lia.
  - by replace (Z.of_nat T - 1)%Z with (Z.of_nat (T - 1)) by lia.
  - rewrite <- Hlast. unfold select0. cbn [shape data].
    by rewrite norm_index_last, norm_index_nat by lia.
Qed.

(** ** Broadcasting at any rank *)

Section Broadcast.

Implicit Types d : list float.

(** A dimension can be expanded to another when it equals it or is 1. *)
Local Abbreviation expands := (Forall2 (fun a b : nat => a = b \/ a = 1)).

Lemma numel_ones m s : numel (replicate m 1 ++ s) = numel s.
Proof.
  induction m as [|m IH]; [done|].
  change (numel (1 :: (replicate m 1 ++ s)) = numel s).
  rewrite numel_cons, IH. lia.
Qed.

Lemma bind_seq_const {A} a n (x : list A) :
  seq a n ≫= (fun _ => x) = mjoin (replicate n x).
Proof. revert a. induction n as [|n IH]; intros a; [done|]. csimpl. by rewrite IH. Qed.

Lemma join_replicate_replicate {A} b m (c : A) :
  mjoin (replicate b (replicate m c)) = replicate (b * m) c.
Proof. induction b as [|b IH]; [done|]. simpl. by rewrite IH, replicate_add. Qed.

Lemma bind_seq_ext {A} n (f g : nat -> list A) :
  (forall i, i < n -> f i = g i) -> seq 0 n ≫= f = seq 0 n ≫= g.
Proof.
  intros Hfg. induction n as [|n IH]; [done|].
  rewrite seq_S, !bind_app. csimpl. rewrite !app_nil_r.
  rewrite IH, Hfg by (intros; (apply Hfg || idtac); lia). done.
Qed.

Lemma length_bind_seq {A} n m (f : nat -> list A) :
  (forall i, i < n -> length (f i) = m) -> length (seq 0 n ≫= f) = n * m.
Proof.
  intros Hf. induction n as [|n IH]; [done|].
  rewrite seq_S, bind_app, length_app. csimpl.
  rewrite app_nil_r, IH, Hf by (intros; (apply Hf || idtac); lia). lia.
Qed.

Lemma block_replicate i a sz (c : float) :
  i < a -> block i sz (replicate (a * sz) c) = replicate sz c.
Proof.
  intros Hi. unfold block. rewrite drop_replicate, take_replicate. f_equal.
  assert ((i + 1) * sz <= a * sz) by (apply Nat.mul_le_mono_r; lia). lia.
Qed.

Lemma expand_data_length from to d :
  expands from to -> length d = numel from ->
  length (expand_data from to d) = numel to.
Proof.
  intros Hexp. revert d.
  induction Hexp as [|a b from to Hab Hexp IH]; intros d Hd; [done|].
  rewrite expand_data_cons, numel_cons. rewrite numel_cons in Hd.
  destruct (decide (a = b)) as [<-|Hne].
  - apply length_bind_seq. intros i Hi. apply IH, length_block.
    rewrite Hd. apply Nat.mul_le_mono_r. lia.
  - destruct Hab as [?| ->]; [done|].
    rewrite (length_join_uniform (numel to)), length_replicate; [done|].
    apply Forall_replicate, IH, length_block. lia.
Qed.

Lemma expand_data_replicate from to (c : float) :
  expands from to ->
  expand_data from to (replicate (numel from) c) = replicate (numel to) c.
Proof.
  induction 1 as [|a b from to Hab Hexp IH]; [done|].
  rewrite expand_data_cons, !numel_cons.
  destruct (decide (a = b)) as [<-|Hne].
  - rewrite (bind_seq_ext _ _ (fun _ => replicate (numel to) c)).
    + by rewrite bind_seq_const, join_replicate_replicate.
    + intros i Hi. by rewrite block_replicate, IH.
  - destruct Hab as [?| ->]; [done|].
    by rewrite block_replicate, IH, join_replicate_replicate by lia.
Qed.

Lemma broadcast_rev_nil_r a : broadcast_rev a [] = Some a.
Proof. by destruct a. Qed.

Lemma broadcast_rev_expands ra rb rs :
  broadcast_rev ra rb = Some rs ->
  expands (ra ++ replicate (length rs - length ra) 1) rs /\
  expands (rb ++ replicate (length rs - length rb) 1) rs.
Proof.
  assert (forall s : list nat, expands (replicate (length s) 1) s) as Hones.
  { induction s; simpl; constructor; auto. }
  assert (forall s : list nat, expands s s) as Hrefl.
  { induction s; constructor; auto. }
  revert rb rs. induction ra as [|x ra IH]; intros rb rs Hb.
  { injection Hb as <-. simpl. rewrite Nat.sub_0_r, Nat.sub_diag. simpl.
    rewrite app_nil_r. auto. }
  destruct rb as [|y rb].
  { injection Hb as <-. rewrite Nat.sub_diag. simpl.
    rewrite app_nil_r. split; [apply (Hrefl (x :: ra))|]. constructor; auto. }
  simpl in Hb.
  assert (forall z rs', broadcast_rev ra rb = Some rs' ->
            (x = z \/ x = 1) -> (y = z \/ y = 1) ->
            expands ((x :: ra) ++ replicate (length (z :: rs') - length (x :: ra)) 1) (z :: rs') /\
            expands ((y :: rb) ++ replicate (length (z :: rs') - length (y :: rb)) 1) (z :: rs')) as Hstep.
  { intros z rs' Hrs' Hx Hy. destruct (IH _ _ Hrs') as [IH1 IH2].
    split; simpl; constructor; auto. }
  destruct (broadcast_rev ra rb) as [rs'|] eqn:E.
  - repeat case_decide; simpl in Hb; try done; injection Hb as <-;
      apply Hstep; auto.
  - repeat case_decide; simpl in Hb; done.
Qed.

Lemma broadcast_shapes_expands a b s :
  broadcast_shapes a b = Some s ->
  expands (pad_shape a (length s)) s /\ expands (pad_shape b (length s)) s.
Proof.
  unfold broadcast_shapes. intros Hs.
  destruct (broadcast_rev (reverse a) (reverse b)) as [rs|] eqn:E; [|done].
  injection Hs as <-. apply broadcast_rev_expands in E as [E1 E2].
  unfold pad_shape. rewrite length_reverse. rewrite !length_reverse in E1, E2.
  split; apply Forall2_reverse in E1, E2;
    rewrite reverse_app, reverse_involutive, reverse_replicate in E1, E2; done.
Qed.

Lemma broadcast_shapes_last la lb H s :
  broadcast_shapes (la ++ [H]) (lb ++ [H]) = Some s -> exists ls, s = ls ++ [H].
Proof.
  unfold broadcast_shapes. rewrite !reverse_app. simpl.
  rewrite decide_True by done.
  destruct (broadcast_rev (reverse la) (reverse lb)) as [rs|]; [|done].
  simpl. intros [= <-]. exists (reverse rs). by rewrite reverse_cons.
Qed.

Lemma torch_add_out a b c la lb H :
  wf a -> wf b -> shape a = la ++ [H] -> shape b = lb ++ [H] ->
  torch_add a b = Ok c -> wf c /\ exists lc, shape c = lc ++ [H].
Proof.
  intros Ha Hb Hsa Hsb. unfold torch_add.
  destruct (broadcast_shapes (shape a) (shape b)) as [s|] eqn:E; [|done].
  intros [= <-]. split.
  - apply broadcast_shapes_expands in E as [E1 E2].
    unfold wf, expand_to. simpl.
    rewrite length_zip_with, !expand_data_length; try done.
    + lia.
    + by unfold pad_shape; rewrite numel_ones.
    + by unfold pad_shape; rewrite numel_ones.
  - rewrite Hsa, Hsb in E. simpl. by eapply broadcast_shapes_last.
Qed.

Lemma torch_add_zeros c lead H :
  wf c -> shape c = lead ++ [H] ->
  torch_add c (torch_zeros [H]) = Ok (add_scalar c 0%float).
Proof.
  intros Hwf Hs. destruct c as [s d]. unfold wf in Hwf. simpl in *. subst s.
  unfold torch_add. simpl.
  assert (broadcast_shapes (lead ++ [H]) [H] = Some (lead ++ [H])) as ->.
  { unfold broadcast_shapes. rewrite reverse_app. simpl.
    rewrite decide_True by done. rewrite broadcast_rev_nil_r. simpl.
    by rewrite reverse_cons, reverse_involutive. }
  unfold add_scalar. simpl. do 2 f_equal.
  rewrite expand_to_same by done.
  assert (expand_to (torch_zeros [H]) (lead ++ [H])
          = replicate (numel (lead ++ [H])) 0%float) as ->.
  { unfold expand_to, torch_zeros, pad_shape. cbn [shape data].
    rewrite length_app. simpl. rewrite Nat.add_sub.
    rewrite <- (numel_ones (length lead) [H]).
    apply expand_data_replicate. apply Forall2_app.
    - clear. induction lead; simpl; constructor; auto.
    - constructor; auto. }
  by rewrite zip_with_replicate_r_eq.
Qed.

Lemma matmul_out a b c :
  matmul a b = Ok c ->
  wf c /\ exists lead k n, shape b = [k; n] /\ shape c = lead ++ [n].
Proof.
  unfold matmul. destruct (shape b) as [|k [|n [|]]]; [done..| |done].
  destruct (reverse (shape a)) as [|k' lead_rev]; [done|].
  case_decide; [|done]. intros [= <-]. split; [|by eauto].
  unfold wf. simpl. rewrite bind_as_join, (length_join_uniform n).
  - rewrite length_fmap, length_reshape, length_replicate, numel_app.
    by rewrite numel_cons, numel_nil, Nat.mul_1_r.
  - apply Forall_fmap, Forall_forall. intros r _. simpl.
    unfold columns. by rewrite length_fmap, length_reshape, length_replicate.
Qed.

End Broadcast.

(** ** No bias, or a bias of zeros *)

Section ZeroBias.

Variable tanh : float -> float.

Lemma add_operand_zeros c lead H :
  wf c -> shape c = lead ++ [H] ->
  add_operand c (OTensor (torch_zeros [H])) = add_operand c OInt0.
Proof. intros Hwf Hs. simpl. by apply (torch_add_zeros c lead). Qed.

Lemma attr_T_rows w H K w_T :
  shape w = [H; K] -> attr_T (Some w) = Ok w_T -> shape w_T = [K; H].
Proof.
  intros Hs. unfold attr_T, transpose. rewrite Hs. by intros [= <-].
Qed.

Lemma compute_new_hidden_state_zero_bias prev inp w_hh w_ih act H K1 K2 :
  shape w_hh = [H; K1] -> shape w_ih = [H; K2] ->
  compute_new_hidden_state tanh prev inp (Some w_hh) OInt0 (Some w_ih) OInt0 act
  = compute_new_hidden_state tanh prev inp
      (Some w_hh) (OTensor (torch_zeros [H]))
      (Some w_ih) (OTensor (torch_zeros [H])) act.
Proof.
  intros Hhh Hih. unfold compute_new_hidden_state.
  destruct (attr_T (Some w_hh)) as [whh_T|] eqn:E1; [|done]. cbn [bind].
  apply (attr_T_rows _ H K1) in E1; [|done].
  destruct (matmul prev whh_T) as [hh|] eqn:E2; [|done]. cbn [bind].
  apply matmul_out in E2 as (Hwf1 & lead1 & k1 & n1 & Hsb1 & Hs1).
  rewrite E1 in Hsb1. injection Hsb1 as <- <-.
  cbn [add_operand bind]. rewrite (torch_add_zeros hh lead1 H) by done.
  cbn [bind].
  destruct (attr_T (Some w_ih)) as [wih_T|] eqn:E3; [|done]. cbn [bind].
  apply (attr_T_rows _ H K2) in E3; [|done].
  destruct (matmul inp wih_T) as [ih|] eqn:E4; [|done]. cbn [bind].
  apply matmul_out in E4 as (Hwf2 & lead2 & k2 & n2 & Hsb2 & Hs2).
  rewrite E3 in Hsb2. injection Hsb2 as <- <-.
  destruct (torch_add (add_scalar hh 0) ih) as [s2|] eqn:E5; [|done]. cbn [bind].
  apply (torch_add_out _ _ _ lead1 lead2 H) in E5 as (Hwf3 & lead3 & Hs3);
    [|by unfold wf, add_scalar; simpl; rewrite length_map|done..].
  by rewrite (torch_add_zeros s2 lead3 H).
Qed.

Lemma bind_ext {A B} (r : result A) (k1 k2 : A -> result B) :
  (forall a, k1 a = k2 a) -> bind r k1 = bind r k2.
Proof. intros Hk. destruct r; simpl; [apply Hk|done]. Qed.

Lemma get_zero_biases_other self k :
  (forall l : nat, "bias_hh_l" +:+ pretty l <> k) ->
  (forall l : nat, "bias_ih_l" +:+ pretty l <> k) ->
  get (zero_biases self) k = get self k.
Proof.
  intros H1 H2. unfold get, zero_biases. simpl.
  induction (seq 0 (num_layers self)) as [|l ls IH]; [done|].
  simpl. by rewrite !lookup_insert_ne.
Qed.

Lemma get_zero_biases_bias self l k :
  l < num_layers self ->
  k = "bias_hh_l" +:+ pretty l \/ k = "bias_ih_l" +:+ pretty l ->
  get (zero_biases self) k = Some (torch_zeros [hidden_size self]).
Proof.
  intros Hl Hk. unfold get, zero_biases. simpl.
  assert (l ∈ seq 0 (num_layers self)) as Hin by (apply elem_of_seq; lia).
  induction (seq 0 (num_layers self)) as [|l' ls IH];
    [by apply elem_of_nil in Hin|].
  simpl. rewrite lookup_insert. case_decide; [done|].
  rewrite lookup_insert. case_decide; [done|].
  apply elem_of_cons in Hin as [->|Hin]; [|by apply IH].
  by destruct Hk.
Qed.

Lemma cell_update_zero_biases self X h0 D idx layer st :
  bias_freeb self = true -> params_okb self D = true ->
  layer < num_layers self ->
  cell_update tanh (zero_biases self) X h0 idx layer st
  = cell_update tanh self X h0 idx layer st.
Proof.
  intros Hfree Hok Hlayer.
  assert (layer ∈ seq 0 (num_layers self)) as Hin by (apply elem_of_seq; lia).
  apply list_elem_of_In in Hin.
  unfold bias_freeb in Hfree. rewrite forallb_forall in Hfree.
  pose proof (Hfree _ Hin) as Hb. apply andb_prop in Hb as [Hbhh Hbih].
  unfold params_okb in Hok. rewrite forallb_forall in Hok.
  pose proof (Hok _ Hin) as Hl. unfold layer_okb in Hl.
  apply andb_prop in Hl as [Hl _]. apply andb_prop in Hl as [Hl _].
  apply andb_prop in Hl as [Hwhh Hwih].
  apply weight_okb_spec in Hwhh as (whh & Ehh & Hshh & _).
  apply weight_okb_spec in Hwih as (wih & Eih & Hsih & _).
  unfold cell_update.
  rewrite !get_zero_biases_other by (intros l; simpl; discriminate).
  unfold get_or_0 at 1 2.
  fold (get (zero_biases self) ("bias_hh_l" +:+ pretty layer)).
  fold (get (zero_biases self) ("bias_ih_l" +:+ pretty layer)).
  rewrite !(get_zero_biases_bias self layer) by auto.
  unfold get_or_0.
  fold (get self ("bias_hh_l" +:+ pretty layer)).
  fold (get self ("bias_ih_l" +:+ pretty layer)).
  destruct (get self ("bias_hh_l" +:+ pretty layer)); [done|].
  destruct (get self ("bias_ih_l" +:+ pretty layer)); [done|].
  rewrite Ehh, Eih. cbn [from_option zero_biases activation_func].
  apply bind_ext; intros phs. apply bind_ext; intros inp.
  apply bind_ext; intros prev.
  by rewrite <- (compute_new_hidden_state_zero_bias prev inp whh wih _ _ _ _
                  Hshh Hsih).
Qed.

Lemma forward_zero_biases self X hidden_0 D :
  bias_freeb self = true -> params_okb self D = true ->
  forward tanh self X hidden_0 = forward tanh (zero_biases self) X hidden_0.
Proof.
  intros Hfree Hok. unfold forward.
  assert (forward_loops tanh (zero_biases self) X hidden_0
          = forward_loops tanh self X hidden_0) as ->; [|done].
  unfold forward_loops. cbn [zero_biases num_layers hidden_size].
  destruct (shape_at X 0) as [T|]; [|done]. cbn [bind].
  destruct (shape_at X 1) as [B|]; [|done]. cbn [bind].
  apply for_each_ext; intros idx st _.
  apply for_each_ext; intros layer st' Hlayer.
  apply (cell_update_zero_biases _ _ _ D); [done..|].
  apply elem_of_seq in Hlayer. lia.
Qed.

End ZeroBias.

(** ** An input with the wrong number of features *)

Section Mismatch.

Variable tanh : float -> float.

Lemma matmul_mismatch a b B D' D H :
  shape a = [B; D'] -> shape b = [D; H] -> D' <> D ->
  matmul a b = Raise RuntimeError.
Proof.
  intros Ha Hb Hne. unfold matmul. rewrite Hb, Ha. cbn [reverse rev_append].
  by rewrite decide_False.
Qed.

Lemma first_cell_mismatch self X h0 T B D D' Lh st :
  shape X = [T; B; D'] -> D' <> D -> 0 < T ->
  shape h0 = [Lh; B; hidden_size self] -> 0 < Lh ->
  layer_okb self D 0 = true ->
  (exists prev w_T hh,
     select0 h0 0 = Ok prev /\
     attr_T (get self "weight_hh_l0") = Ok w_T /\
     matmul prev w_T = Ok hh) /\
  cell_update tanh self X h0 0 0 st = Raise RuntimeError.
Proof.
  intros HX Hne HT Hh0 HLh Hok. unfold layer_okb in Hok.
  apply andb_prop in Hok as [Hok Hbih]. apply andb_prop in Hok as [Hok Hbhh].
  apply andb_prop in Hok as [Hwhh Hwih].
  apply weight_okb_spec in Hwhh as (whh & Ehh & Hshh & Hwfhh).
  apply weight_okb_spec in Hwih as (wih & Eih & Hsih & Hwfih).
  apply bias_okb_spec in Hbhh.
  change ("weight_hh_l" +:+ pretty 0) with "weight_hh_l0" in *.
  change ("weight_ih_l" +:+ pretty 0) with "weight_ih_l0" in *.
  change ("bias_hh_l" +:+ pretty 0) with "bias_hh_l0" in *.
  destruct h0 as [sh dh]. destruct X as [sx dx]. simpl in HX, Hh0. subst sh sx.
  destruct (matmul_transpose_table
              (mkTensor [B; hidden_size self] (block 0 (numel [B; hidden_size self]) dh))
              whh B (hidden_size self) (hidden_size self))
    as (whh_T & E1 & E2); [done..|].
  split.
  { rewrite Ehh, (select0_nat Lh _ _ 0) by done.
    do 3 eexists. split_and!; [done|exact E1|exact E2]. }
  unfold cell_update. cbn [bind decide decide_rel Nat.eq_dec nat_rec nat_rect].
  rewrite decide_True by done. cbn [bind].
  rewrite decide_True by done.
  rewrite (select0_nat T _ _ 0), (select0_nat Lh _ _ 0) by done. cbn [bind].
  change ("weight_hh_l" +:+ pretty 0) with "weight_hh_l0".
  change ("weight_ih_l" +:+ pretty 0) with "weight_ih_l0".
  change ("bias_hh_l" +:+ pretty 0) with "bias_hh_l0".
  unfold compute_new_hidden_state.
  rewrite Ehh, E1. cbn [bind]. rewrite E2. cbn [bind].
  rewrite add_operand_table by done. cbn [bind].
  rewrite Eih. unfold attr_T, transpose. rewrite Hsih. cbn [bind].
  by rewrite (matmul_mismatch _ _ B D' D (hidden_size self)).
Qed.

Lemma forward_feature_mismatch self X h0 T B D D' Lh :
  shape X = [T; B; D'] -> D' <> D -> 0 < T ->
  shape h0 = [Lh; B; hidden_size self] -> 0 < Lh ->
  0 < num_layers self -> params_okb self D = true ->
  forward tanh self X (Some h0) = Raise RuntimeError.
Proof.
  intros HX Hne HT Hh0 HLh HL Hok.
  assert (layer_okb self D 0 = true) as Hok0.
  { unfold params_okb in Hok. rewrite forallb_forall in Hok.
    apply Hok, in_seq. lia. }
  unfold forward, forward_loops, shape_at. rewrite HX.
  cbn [lookup list_lookup bind].
  destruct T as [|T']; [lia|]. destruct (num_layers self) as [|L'] eqn:EL; [lia|].
  cbn [seq for_each].
  by rewrite (proj2 (first_cell_mismatch self X h0 (S T') B D D' Lh _
                       HX Hne HT Hh0 HLh Hok0)).
Qed.

Lemma for_each_app {St} xs ys (body : nat -> St -> result St) s :
  for_each (xs ++ ys) body s = (s' <- for_each xs body s ;; for_each ys body s').
Proof.
  revert s. induction xs as [|x xs IH]; intros s; [done|].
  simpl. destruct (body x s); simpl; [apply IH|done].
Qed.

Lemma select0_past_end t n s :
  shape t = n :: s -> select0 t (Z.of_nat n) = Raise IndexError.
Proof.
  intros Hs. unfold select0, norm_index. rewrite Hs.
  by rewrite !decide_False by lia.
Qed.

Lemma forward_missing_layer self X h0 T B D Lh :
  shape X = [T; B; D] ->
  shape h0 = [Lh; B; hidden_size self] ->
  Lh < num_layers self -> 0 < T ->
  params_okb self D = true ->
  forward tanh self X (Some h0) = Raise IndexError.
Proof.
  intros HX Hh0 HLh HT Hok.
  unfold forward, forward_loops, shape_at. rewrite HX.
  cbn [lookup list_lookup bind].
  destruct T as [|T']; [lia|]. cbn [seq for_each].
  assert (for_each (seq 0 (num_layers self))
            (fun layer => cell_update tanh self X h0 0 layer)
            (mkLoop (fill (torch_zeros
               [S T'; num_layers self; B; hidden_size self]) nan) [])
          = Raise IndexError) as ->; [|done].
  replace (num_layers self) with (Lh + S (num_layers self - Lh - 1)) at 1 by lia.
  rewrite seq_app, for_each_app.
  destruct (for_each_seq_inv
              (fun layer => loop_inv tanh self X h0 (S T') B 0 layer)
              (fun layer => cell_update tanh self X h0 0 layer) Lh
              (mkLoop (fill (torch_zeros
                 [S T'; num_layers self; B; hidden_size self]) nan) []))
    as (st & -> & G & HlenG & HG & Hhs & _).
  { by apply (loop_inv_init tanh self X h0 (S T') B D Lh). }
  { intros layer st0 Hlayer Hinv.
    apply (cell_update_inv tanh self X h0 (S T') B D Lh); [done..|lia|lia|done|done]. }
  cbn [bind seq for_each Nat.add].
  assert (cell_update tanh self X h0 0 Lh st = Raise IndexError) as ->; [|done].
  unfold cell_update. rewrite decide_True by done. cbn [bind].
  assert (exists inp,
    (if decide (Lh = 0) then select0 X (Z.of_nat 0)
     else index2 (hidden_states st) (Z.of_nat 0) (Z.of_nat Lh - 1)) = Ok inp)
    as [inp ->].
  { destruct (decide (Lh = 0)) as [->|Hne].
    - destruct X as [sx dx]. simpl in HX. subst sx.
      rewrite select0_nat by lia. eauto.
    - rewrite Hhs.
      replace (Z.of_nat Lh - 1)%Z with (Z.of_nat (Lh - 1)) by lia.
      rewrite index2_grid; [eauto|done|lia|lia|lia]. }
  cbn [bind]. by rewrite (select0_past_end h0 Lh _ Hh0).
Qed.

(** *** Where the error arises *)

Lemma first_cell_input_product self X h0 T B D D' Lh :
  shape X = [T; B; D'] -> D' <> D -> 0 < T ->
  shape h0 = [Lh; B; hidden_size self] -> 0 < Lh ->
  layer_okb self D 0 = true ->
  exists prev inp whh_T hh s1 wih_T,
    select0 h0 0 = Ok prev /\ select0 X 0 = Ok inp /\
    attr_T (get self "weight_hh_l0") = Ok whh_T /\
    matmul prev whh_T = Ok hh /\
    add_operand hh (get_or_0 self "bias_hh_l0") = Ok s1 /\
    attr_T (get self "weight_ih_l0") = Ok wih_T /\
    matmul inp wih_T = Raise RuntimeError.
Proof.
  intros HX Hne HT Hh0 HLh Hok. unfold layer_okb in Hok.
  apply andb_prop in Hok as [Hok Hbih]. apply andb_prop in Hok as [Hok Hbhh].
  apply andb_prop in Hok as [Hwhh Hwih].
  apply weight_okb_spec in Hwhh as (whh & Ehh & Hshh & Hwfhh).
  apply weight_okb_spec in Hwih as (wih & Eih & Hsih & Hwfih).
  apply bias_okb_spec in Hbhh.
  rewrite decide_True in Hsih by done.
  change ("weight_hh_l" +:+ pretty 0) with "weight_hh_l0" in *.
  change ("weight_ih_l" +:+ pretty 0) with "weight_ih_l0" in *.
  change ("bias_hh_l" +:+ pretty 0) with "bias_hh_l0" in *.
  destruct h0 as [sh dh]. destruct X as [sx dx]. simpl in HX, Hh0. subst sh sx.
  destruct (matmul_transpose_table
              (mkTensor [B; hidden_size self] (block 0 (numel [B; hidden_size self]) dh))
              whh B (hidden_size self) (hidden_size self))
    as (whh_T & E1 & E2); [done..|].
  rewrite Ehh, Eih.
  change 0%Z with (Z.of_nat 0).
  rewrite (select0_nat T _ _ 0), (select0_nat Lh _ _ 0) by done.
  eexists _, _, whh_T, _, _, _.
  split_and!; [done|done|exact E1|exact E2| | |].
  - by apply add_operand_table.
  - unfold attr_T, transpose. by rewrite Hsih.
  - by apply (matmul_mismatch _ _ B D' D (hidden_size self)).
Qed.

Lemma first_cell_recurrent_product self X h0 T B D D' H' Lh :
  shape X = [T; B; D'] -> 0 < T ->
  shape h0 = [Lh; B; H'] -> H' <> hidden_size self -> 0 < Lh ->
  layer_okb self D 0 = true ->
  (exists prev inp whh_T,
     select0 h0 0 = Ok prev /\ select0 X 0 = Ok inp /\
     attr_T (get self "weight_hh_l0") = Ok whh_T /\
     matmul prev whh_T = Raise RuntimeError) /\
  forall st, cell_update tanh self X h0 0 0 st = Raise RuntimeError.
Proof.
  intros HX HT Hh0 Hne HLh Hok. unfold layer_okb in Hok.
  apply andb_prop in Hok as [Hok Hbih]. apply andb_prop in Hok as [Hok Hbhh].
  apply andb_prop in Hok as [Hwhh Hwih].
  apply weight_okb_spec in Hwhh as (whh & Ehh & Hshh & Hwfhh).
  change ("weight_hh_l" +:+ pretty 0) with "weight_hh_l0" in *.
  destruct h0 as [sh dh]. destruct X as [sx dx]. simpl in HX, Hh0. subst sh sx.
  assert (matmul (mkTensor [B; H'] (block 0 (numel [B; H']) dh))
            (mkTensor [hidden_size self; hidden_size self]
               (transpose_data (hidden_size self) (hidden_size self) (data whh)))
          = Raise RuntimeError) as Hprod.
  { by apply (matmul_mismatch _ _ B H' (hidden_size self) (hidden_size self)). }
  split.
  - rewrite Ehh. change 0%Z with (Z.of_nat 0).
    rewrite (select0_nat T _ _ 0), (select0_nat Lh _ _ 0) by done.
    eexists _, _, _. split_and!; [done|done| |exact Hprod].
    unfold attr_T, transpose. by rewrite Hshh.
  - intros st. unfold cell_update.
    rewrite !decide_True by done. cbn [bind].
    rewrite (select0_nat T _ _ 0), (select0_nat Lh _ _ 0) by done. cbn [bind].
    change ("weight_hh_l" +:+ pretty 0) with "weight_hh_l0".
    unfold compute_new_hidden_state.
    rewrite Ehh. unfold attr_T at 1, transpose at 1. rewrite Hshh. cbn [bind].
    by rewrite Hprod.
Qed.

Lemma forward_first_cell_error self X h0 T B D' e :
  shape X = [T; B; D'] -> 0 < T -> 0 < num_layers self ->
  (forall st, cell_update tanh self X h0 0 0 st = Raise e) ->
  forward_loops tanh self X (Some h0) = Raise e /\
  forward tanh self X (Some h0) = Raise e.
Proof.
  intros HX HT HL Hcell.
  assert (forward_loops tanh self X (Some h0) = Raise e) as Hloops.
  { unfold forward_loops, shape_at. rewrite HX.
    cbn [lookup list_lookup bind].
    destruct T as [|T']; [lia|].
    destruct (num_layers self) as [|L'] eqn:EL; [lia|].
    cbn [seq for_each]. by rewrite Hcell. }
  split; [done|]. unfold forward. by rewrite Hloops.
Qed.

Lemma first_row_missing_layer self X h0 T B D Lh :
  shape X = [T; B; D] ->
  shape h0 = [Lh; B; hidden_size self] ->
  Lh < num_layers self -> 0 < T ->
  params_okb self D = true ->
  exists st grid,
    for_each (seq 0 Lh) (fun layer => cell_update tanh self X h0 0 layer)
      (mkLoop (fill (torch_zeros [T; num_layers self; B; hidden_size self]) nan) [])
    = Ok st /\
    written st = pair 0 <$> seq 0 Lh /\
    (forall l, l < Lh ->
       recurrence_at tanh self X h0 grid 0 l /\
       index2 (hidden_states st) 0 (Z.of_nat l) = Ok (grid 0 l)) /\
    select0 h0 (Z.of_nat Lh) = Raise IndexError /\
    cell_update tanh self X h0 0 Lh st = Raise IndexError /\
    forward_loops tanh self X (Some h0) = Raise IndexError /\
    forward tanh self X (Some h0) = Raise IndexError.
Proof.
  intros HX Hh0 HLh HT Hok.
  destruct (for_each_seq_inv
              (fun layer => loop_inv tanh self X h0 T B 0 layer)
              (fun layer => cell_update tanh self X h0 0 layer) Lh
              (mkLoop (fill (torch_zeros
                 [T; num_layers self; B; hidden_size self]) nan) []))
    as (st & Hrun & G & HlenG & HG & Hhs & Hlog & Hrec).
  { by apply (loop_inv_init tanh self X h0 T B D Lh). }
  { intros layer st0 Hlayer Hinv.
    apply (cell_update_inv tanh self X h0 T B D Lh); [done..|lia|lia|done|done]. }
  assert (cell_update tanh self X h0 0 Lh st = Raise IndexError) as Hcell.
  { unfold cell_update. rewrite decide_True by done. cbn [bind].
    assert (exists inp,
      (if decide (Lh = 0) then select0 X (Z.of_nat 0)
       else index2 (hidden_states st) (Z.of_nat 0) (Z.of_nat Lh - 1)) = Ok inp)
      as [inp ->].
    { destruct (decide (Lh = 0)) as [->|Hne].
      - destruct X as [sx dx]. simpl in HX. subst sx.
        rewrite select0_nat by lia. eauto.
      - rewrite Hhs.
        replace (Z.of_nat Lh - 1)%Z with (Z.of_nat (Lh - 1)) by lia.
        rewrite index2_grid; [eauto|done|lia|lia|lia]. }
    cbn [bind]. by rewrite (select0_past_end h0 Lh _ Hh0). }
  assert (forward_loops tanh self X (Some h0) = Raise IndexError) as Hloops.
  { unfold forward_loops, shape_at. rewrite HX.
    cbn [lookup list_lookup bind].
    destruct T as [|T']; [lia|]. cbn [seq for_each].
    replace (num_layers self) with (Lh + S (num_layers self - Lh - 1)) at 1 by lia.
    rewrite seq_app, for_each_app, Hrun.
    cbn [bind seq for_each Nat.add]. by rewrite Hcell. }
  exists st, (grid_of (num_layers self) G).
  split_and!; [done| | |by apply (select0_past_end h0 Lh _ Hh0)|done|done|].
  - rewrite Hlog. unfold cells_before. done.
  - intros l Hl. split.
    + apply Hrec; lia.
    + rewrite Hhs. change 0%Z with (Z.of_nat 0).
      rewrite index2_grid; [done|done|lia|lia|lia].
  - unfold forward. by rewrite Hloops.
Qed.


End Mismatch.

(** ** The outcome of [forward] at conformant shapes *)

Lemma cells_before_all L T t l :
  (t, l) ∈ cells_before L T 0 <-> t < T /\ l < L.
Proof.
  unfold cells_before. simpl. rewrite app_nil_r, list_elem_of_bind. split.
  - intros (t' & Hin & Ht'). apply list_elem_of_fmap in Hin as (l' & [= -> ->] & Hl').
    apply elem_of_seq in Ht', Hl'. lia.
  - intros [Ht Hl]. exists t. split.
    + apply list_elem_of_fmap. exists l. split; [done|]. apply elem_of_seq. lia.
    + apply elem_of_seq. lia.
Qed.

Lemma cells_before_NoDup L T : NoDup (cells_before L T 0).
Proof.
  unfold cells_before. simpl. rewrite app_nil_r. apply NoDup_bind.
  - intros t1 t2 [t l] _ _ (? & [= -> _] & _)%list_elem_of_fmap
      (? & [= -> _] & _)%list_elem_of_fmap. done.
  - intros t _. apply NoDup_fmap_2; [|apply NoDup_seq].
    by intros l1 l2 [= ->].
  - apply NoDup_seq.
Qed.

Section Outcome.

Variables (T L B H : nat).

Implicit Types G : list Tensor.

Lemma grid_cell_index G k :
  length G = T * L -> k < length G ->
  exists t l, t < T /\ l < L /\ k = t * L + l.
Proof.
  intros HlenG Hk. rewrite HlenG in Hk. assert (L <> 0) by (intros ->; lia).
  exists (k / L), (k mod L). split_and!.
  - apply Nat.Div0.div_lt_upper_bound. lia.
  - by apply Nat.mod_upper_bound.
  - rewrite (Nat.div_mod_eq k L) at 1. lia.
Qed.

Lemma existsb_grid G :
  length G = T * L ->
  existsb isnan_any G = true <->
  exists t l, t < T /\ l < L /\ isnan_any (grid_of L G t l) = true.
Proof.
  intros HlenG. rewrite existsb_exists. split.
  - intros (c & Hin & Hc). apply list_elem_of_In in Hin.
    apply list_elem_of_lookup_total in Hin as (k & Hk & <-).
    destruct (grid_cell_index G k HlenG Hk) as (t & l & Ht & Hl & ->).
    by exists t, l.
  - intros (t & l & Ht & Hl & Hc). exists (grid_of L G t l). split; [|done].
    apply list_elem_of_In, list_elem_of_lookup_total_2.
    rewrite HlenG. by apply cell_index_lt.
Qed.

End Outcome.

Section Conformant.

Variable tanh : float -> float.

Lemma forward_conformant self X h0 T B D Lh :
  shape X = [T; B; D] ->
  shape h0 = [Lh; B; hidden_size self] ->
  num_layers self <= Lh ->
  params_okb self D = true ->
  0 < T -> 0 < num_layers self ->
  exists G outs final,
    length G = T * num_layers self /\
    recurrence tanh self X h0 T (grid_of (num_layers self) G) /\
    forward tanh self X (Some h0)
    = (if existsb isnan_any G then Raise AssertionError else Ok (outs, final)) /\
    (forall t, t < T ->
       select0 outs (Z.of_nat t)
       = Ok (grid_of (num_layers self) G t (num_layers self - 1))) /\
    (forall l, l < num_layers self ->
       select0 final (Z.of_nat l) = Ok (grid_of (num_layers self) G (T - 1) l)).
Proof.
  intros HX Hh0 HLh Hok HT HL.
  destruct (forward_loops_conformant tanh self X h0 T B D Lh HX Hh0 Hok HLh)
    as (G & st & Hst & HlenG & HG & Hhs & _ & Hrec).
  destruct (grid_last_layer T _ B _ G HG HlenG HL) as (outs & Houts & _ & Hout).
  destruct (grid_last_step T _ B _ G HG HlenG HT) as (final & Hfinal & _ & Hfin).
  exists G, outs, final. split_and!; [done..| |done|done].
  unfold forward. rewrite Hst. cbn [bind]. rewrite Hhs, isnan_any_grid.
  destruct (existsb isnan_any G); [done|].
  rewrite Houts. cbn [bind]. by rewrite Hfinal.
Qed.

End Conformant.

Section Properties.

Variable tanh : float -> float.

(** ** The step function *)

(** C2: at conformant shapes, [prev] of [B] rows of [H] numbers, [inputs] of
    [B] rows of [D], weights [H] by [H] and [H] by [D], each bias a vector
    of [H] numbers or the integer 0, and either activation, the step
    function returns, without failing, the tensor of shape [B, H] whose
    entries are [act (prev . w_hh^T + b_hh + inputs . w_ih^T + b_ih)], the
    biases added to every batch row and the activation applied to every
    entry. It is a function of its arguments alone. *)
Theorem compute_new_hidden_state_correct (B H D : nat)
    (prev inp w_hh w_ih : Tensor) (b_hh b_ih : operand) (act : Callable) :
  shape prev = [B; H] -> shape inp = [B; D] ->
  shape w_hh = [H; H] -> wf w_hh ->
  shape w_ih = [H; D] -> wf w_ih ->
  bias_conformant H b_hh -> bias_conformant H b_ih ->
  compute_new_hidden_state tanh prev inp (Some w_hh) b_hh (Some w_ih) b_ih act
  = Ok (new_hidden_formula tanh B H D prev inp w_hh b_hh w_ih b_ih act).
Proof. apply compute_new_hidden_state_formula. Qed.

(** ** The activation chosen by [__init__] *)

(** C6: the activation selected from the wrapped model's nonlinearity is
    [torch.relu] exactly when the string is "relu", and [torch.tanh] for
    every other string; [MyRNN_init] is a total function, so no string makes
    the selection fail. *)
Theorem activation_selection (rnn : RNN) :
  (activation_func (MyRNN_init rnn) = torch_relu <-> nonlinearity rnn = "relu")
  /\ (activation_func (MyRNN_init rnn) = torch_tanh <-> nonlinearity rnn <> "relu").
Proof.
  unfold MyRNN_init; simpl.
  destruct (decide (nonlinearity rnn = "relu")) as [Heq|Hne]; split; split;
    intros; try done.
Qed.

(** ** The grid of hidden states *)

(** C1 (amended): for an input [X] of shape [T, B, D] with [T >= 1], an
    initial state of shape [num_layers, B, H] and conformant parameters of
    at least one layer, the loops of [forward] fill a grid that obeys the
    recurrence: cell [(t, l)] is the step of layer [l] applied to
    [hidden_0[l]] (at [t = 0]) or cell [(t-1, l)], and to [X[t]] (at
    [l = 0]) or cell [(t, l-1)]. When no cell of the grid holds a NaN,
    [forward] returns the pair whose first component reads
    [grid t (num_layers - 1)] at every [t] and whose second reads
    [grid (T - 1) l] at every [l]; when some cell holds a NaN it raises
    [AssertionError] instead. *)
Theorem forward_grid_recurrence (self : MyRNN) (X hidden_0 : Tensor)
    (T B D : nat) :
  shape X = [T; B; D] ->
  shape hidden_0 = [num_layers self; B; hidden_size self] ->
  params_okb self D = true ->
  0 < T -> 0 < num_layers self ->
  exists grid : nat -> nat -> Tensor,
    recurrence tanh self X hidden_0 T grid /\
    ((forall t l, t < T -> l < num_layers self -> isnan_any (grid t l) = false) ->
     exists outs final,
       forward tanh self X (Some hidden_0) = Ok (outs, final) /\
       (forall t, t < T ->
          select0 outs (Z.of_nat t) = Ok (grid t (num_layers self - 1))) /\
       (forall l, l < num_layers self ->
          select0 final (Z.of_nat l) = Ok (grid (T - 1) l))) /\
    ((exists t l, t < T /\ l < num_layers self /\ isnan_any (grid t l) = true) ->
     forward tanh self X (Some hidden_0) = Raise AssertionError).
Proof.
  intros HX Hh0 Hok HT HL.
  destruct (forward_conformant tanh self X hidden_0 T B D (num_layers self))
    as (G & outs & final & HlenG & Hrec & Hfwd & Houts & Hfinal); [done..|].
  exists (grid_of (num_layers self) G). split_and!; [done| |].
  - intros Hclean. exists outs, final. split_and!; [|done..].
    rewrite Hfwd. destruct (existsb isnan_any G) eqn:E; [|done].
    apply (existsb_grid T _ G HlenG) in E as (t & l & Ht & Hl & Hnan).
    by rewrite Hclean in Hnan.
  - intros Hnan. apply (existsb_grid T _ G HlenG) in Hnan.
    by rewrite Hfwd, Hnan.
Qed.

(** C4 (amended): at conformant shapes the two loops assign every cell of
    the grid exactly once, and afterwards every cell reads back the hidden
    state the recurrence gives it, so no cell is left at its initial NaN.
    The assertion after the loops fires exactly when one of these hidden
    states itself holds a NaN; when none does and [T >= 1], [forward]
    returns normally. *)
Theorem forward_loops_cover_grid (self : MyRNN) (X hidden_0 : Tensor)
    (T B D : nat) :
  shape X = [T; B; D] ->
  shape hidden_0 = [num_layers self; B; hidden_size self] ->
  params_okb self D = true ->
  exists (st : loop_state) (grid : nat -> nat -> Tensor),
    forward_loops tanh self X (Some hidden_0) = Ok st /\
    recurrence tanh self X hidden_0 T grid /\
    NoDup (written st) /\
    (forall t l, (t, l) ∈ written st <-> t < T /\ l < num_layers self) /\
    (forall t l, t < T -> l < num_layers self ->
       index2 (hidden_states st) (Z.of_nat t) (Z.of_nat l) = Ok (grid t l)) /\
    (isnan_any (hidden_states st) = true <->
     exists t l, t < T /\ l < num_layers self /\ isnan_any (grid t l) = true) /\
    (0 < T -> 0 < num_layers self ->
     (forall t l, t < T -> l < num_layers self -> isnan_any (grid t l) = false) ->
     exists r, forward tanh self X (Some hidden_0) = Ok r).
Proof.
  intros HX Hh0 Hok.
  destruct (forward_loops_conformant tanh self X hidden_0 T B D (num_layers self))
    as (G & st & Hst & HlenG & HG & Hhs & Hlog & Hrec); [done..|].
  exists st, (grid_of (num_layers self) G). split_and!; [done|done|..].
  - rewrite Hlog. apply cells_before_NoDup.
  - intros t l. rewrite Hlog. apply cells_before_all.
  - intros t l Ht Hl. rewrite Hhs, <- (app_nil_r (mjoin _)).
    apply (index2_grid T _ B (hidden_size self)); [done..|].
    rewrite HlenG. by apply cell_index_lt.
  - rewrite Hhs, isnan_any_grid. by apply existsb_grid.
  - intros HT HL Hclean.
    destruct (grid_last_layer T _ B _ G HG HlenG HL) as (outs & Houts & _).
    destruct (grid_last_step T _ B _ G HG HlenG HT) as (final & Hfinal & _).
    exists (outs, final). unfold forward. rewrite Hst. cbn [bind].
    rewrite Hhs, isnan_any_grid.
    destruct (existsb isnan_any G) eqn:E.
    + apply (existsb_grid T _ G HlenG) in E as (t & l & Ht & Hl & Hnan).
      by rewrite Hclean in Hnan.
    + rewrite Houts. cbn [bind]. by rewrite Hfinal.
Qed.

(** C8: for a model of one layer, whenever [forward] returns
    [(outs, final)], [final[0]] and the last element of [outs], read as
    [outs[T - 1]] for [T = X.shape[0]] or as [outs[-1]], are one and the
    same tensor. *)
Theorem single_layer_final_hidden (self : MyRNN) (X : Tensor)
    (hidden_0 : option Tensor) (outs final : Tensor) :
  num_layers self = 1 ->
  forward tanh self X hidden_0 = Ok (outs, final) ->
  exists (T : nat) (c : Tensor),
    shape_at X 0 = Ok T /\
    select0 final 0 = Ok c /\
    select0 outs (Z.of_nat T - 1) = Ok c /\
    select0 outs (-1) = Ok c.
Proof.
  intros HL Hfwd. unfold forward in Hfwd.
  apply bind_Ok in Hfwd as (st & Hst & Hfwd).
  destruct (isnan_any (hidden_states st)); [done|].
  apply bind_Ok in Hfwd as (outs' & Houts & Hfwd).
  apply bind_Ok in Hfwd as (final' & Hfinal & [= -> ->]).
  apply forward_loops_shape in Hst as (T & B & HT & _ & Hs & Hlen).
  rewrite HL in Hs, Hlen.
  destruct (hidden_states st) as [s d]. simpl in Hs, Hlen. subst s.
  exists T. eexists. split; [done|].
  by apply (single_layer_views T B (hidden_size self) d).
Qed.

(** ** The initial hidden state *)

(** C5: [forward(X)] without [hidden_0] is [forward(X, Z)] for [Z] the zero
    tensor of shape [num_layers, B, H], where [B] is [X.shape[1]]. *)
Theorem forward_default_hidden_0 (self : MyRNN) (X : Tensor) (B : nat) :
  shape_at X 1 = Ok B ->
  forward tanh self X None
  = forward tanh self X (Some (torch_zeros [num_layers self; B; hidden_size self])).
Proof.
  intros HB. unfold forward, forward_loops. rewrite HB.
  destruct (shape_at X 0) as [T|e]; reflexivity.
Qed.

Lemma cell_update_hidden_0 (self : MyRNN) (X h1 h2 : Tensor) idx layer st :
  select0 h1 (Z.of_nat layer) = select0 h2 (Z.of_nat layer) ->
  cell_update tanh self X h1 idx layer st = cell_update tanh self X h2 idx layer st.
Proof.
  intros Hl. unfold cell_update.
  destruct (decide (idx = 0)); [|reflexivity]. simpl.
  destruct (if decide (layer = 0) then _ else _); simpl; [|reflexivity].
  by rewrite Hl.
Qed.

Lemma forward_hidden_0_prefix (self : MyRNN) (X h1 h2 : Tensor) :
  (forall l, l < num_layers self ->
     select0 h1 (Z.of_nat l) = select0 h2 (Z.of_nat l)) ->
  forward tanh self X (Some h1) = forward tanh self X (Some h2).
Proof.
  intros Hh. unfold forward.
  assert (forward_loops tanh self X (Some h1)
          = forward_loops tanh self X (Some h2)) as ->; [|done].
  unfold forward_loops.
  destruct (shape_at X 0) as [T|]; simpl; [|done].
  destruct (shape_at X 1) as [B|]; simpl; [|done].
  apply for_each_ext; intros idx st _.
  apply for_each_ext; intros layer st' Hlayer.
  apply cell_update_hidden_0, Hh.
  apply elem_of_seq in Hlayer. lia.
Qed.

Lemma select0_extra_rows n k s d extra l :
  length d = numel (n :: s) -> l < n ->
  select0 (mkTensor (n + k :: s) (d ++ extra)) (Z.of_nat l)
  = select0 (mkTensor (n :: s) d) (Z.of_nat l).
Proof.
  intros Hd Hl. rewrite !select0_nat by lia. do 2 f_equal.
  rewrite numel_cons in Hd. unfold block.
  assert ((l + 1) * numel s <= n * numel s) by (apply Nat.mul_le_mono_r; lia).
  rewrite drop_app_le, take_app_le by (rewrite ?length_drop; lia). done.
Qed.

(** C9: [forward] reads of [hidden_0] only its first [num_layers] slices.
    Two initial states that agree on [h[l]] for every [l < num_layers] give
    the same result, errors included; in particular rows appended to a
    [hidden_0] of [num_layers] rows change nothing, and at otherwise
    conformant shapes a [hidden_0] with more rows than [num_layers] meets no
    shape or index error: [forward] returns, unless a computed hidden state
    is NaN and the assertion fires. *)
Theorem forward_reads_hidden_0_prefix (self : MyRNN) (X : Tensor) :
  (forall h1 h2 : Tensor,
     (forall l, l < num_layers self ->
        select0 h1 (Z.of_nat l) = select0 h2 (Z.of_nat l)) ->
     forward tanh self X (Some h1) = forward tanh self X (Some h2)) /\
  (forall (B H k : nat) (d extra : list float),
     length d = numel [num_layers self; B; H] ->
     forward tanh self X (Some (mkTensor [num_layers self + k; B; H] (d ++ extra)))
     = forward tanh self X (Some (mkTensor [num_layers self; B; H] d))) /\
  (forall (h : Tensor) (T B D Lh : nat),
     shape X = [T; B; D] -> shape h = [Lh; B; hidden_size self] ->
     num_layers self <= Lh -> params_okb self D = true ->
     0 < T -> 0 < num_layers self ->
     forward tanh self X (Some h) = Raise AssertionError \/
     exists r, forward tanh self X (Some h) = Ok r).
Proof.
  split_and!.
  - apply forward_hidden_0_prefix.
  - intros B H k d extra Hd. apply forward_hidden_0_prefix.
    intros l Hl. by apply select0_extra_rows.
  - intros h T B D Lh HX Hh HLh Hok HT HL.
    destruct (forward_conformant tanh self X h T B D Lh)
      as (G & outs & final & _ & _ & Hfwd & _); [done..|].
    rewrite Hfwd. destruct (existsb isnan_any G); eauto.
Qed.

(** ** Biases *)

(** C7: for a conformant parameter store without biases, [forward] returns
    exactly what it returns for the store with the same weights and both
    biases of every layer set to the zero vector of [H] numbers, whatever
    [X] and [hidden_0] are. *)
Theorem forward_bias_absent_is_zero_bias (self : MyRNN) (X : Tensor)
    (hidden_0 : option Tensor) (D : nat) :
  bias_freeb self = true ->
  params_okb self D = true ->
  forward tanh self X hidden_0 = forward tanh (zero_biases self) X hidden_0.
Proof. apply forward_zero_biases. Qed.

(** ** Errors *)

(** C3 (amended): for [T >= 1] and conformant parameters of at least one
    layer, [forward] does not fail fast on the four mismatches below: each
    of the first three surfaces as the error of the operation that meets
    it, after the operations before it have been computed, and that error
    is the outcome of the call; the fourth does not surface at all.
    - when the feature dimension of [X] differs from the input dimension of
      layer 0 and [hidden_0] has shape [Lh, B, H] with [Lh >= 1], the first
      cell reads [hidden_0[0]] and [X[0]], its recurrent product and the
      addition of [bias_hh_l0] are computed, the input product
      [X[0] @ weight_ih_l0.T] raises [RuntimeError], and with it the cell,
      the loops and the call, also when [Lh] is below the number of layers:
      the missing layer is not reached;
    - when the last dimension of [hidden_0] differs from the hidden size,
      the recurrent product [hidden_0[0] @ weight_hh_l0.T] of the first cell
      raises [RuntimeError], and with it the cell, the loops and the call,
      whatever the feature dimension of [X];
    - when [hidden_0] has [Lh] layers, fewer than the model, and [X] is
      conformant, the cells [(0,0)] to [(0,Lh-1)] are computed and assigned
      as the recurrence says, then [hidden_0[Lh]] raises [IndexError] in
      cell [(0,Lh)], and with it the loops and the call;
    - a [hidden_0] with more layers than the model is not rejected: the
      call returns, or fails by the assertion on NaN only. *)
Theorem forward_shape_mismatch_lazy (self : MyRNN) (T B D : nat) :
  0 < T -> 0 < num_layers self -> params_okb self D = true ->
  (forall (X hidden_0 : Tensor) (D' Lh : nat),
     shape X = [T; B; D'] -> D' <> D ->
     shape hidden_0 = [Lh; B; hidden_size self] -> 0 < Lh ->
     (exists prev inp whh_T hh s1 wih_T,
        select0 hidden_0 0 = Ok prev /\ select0 X 0 = Ok inp /\
        attr_T (get self "weight_hh_l0") = Ok whh_T /\
        matmul prev whh_T = Ok hh /\
        add_operand hh (get_or_0 self "bias_hh_l0") = Ok s1 /\
        attr_T (get self "weight_ih_l0") = Ok wih_T /\
        matmul inp wih_T = Raise RuntimeError) /\
     (forall st, cell_update tanh self X hidden_0 0 0 st = Raise RuntimeError) /\
     forward_loops tanh self X (Some hidden_0) = Raise RuntimeError /\
     forward tanh self X (Some hidden_0) = Raise RuntimeError) /\
  (forall (X hidden_0 : Tensor) (D' H' Lh : nat),
     shape X = [T; B; D'] ->
     shape hidden_0 = [Lh; B; H'] -> H' <> hidden_size self -> 0 < Lh ->
     (exists prev inp whh_T,
        select0 hidden_0 0 = Ok prev /\ select0 X 0 = Ok inp /\
        attr_T (get self "weight_hh_l0") = Ok whh_T /\
        matmul prev whh_T = Raise RuntimeError) /\
     (forall st, cell_update tanh self X hidden_0 0 0 st = Raise RuntimeError) /\
     forward_loops tanh self X (Some hidden_0) = Raise RuntimeError /\
     forward tanh self X (Some hidden_0) = Raise RuntimeError) /\
  (forall (X hidden_0 : Tensor) (Lh : nat),
     shape X = [T; B; D] ->
     shape hidden_0 = [Lh; B; hidden_size self] ->
     Lh < num_layers self ->
     exists (st : loop_state) (grid : nat -> nat -> Tensor),
       for_each (seq 0 Lh)
         (fun layer => cell_update tanh self X hidden_0 0 layer)
         (mkLoop (fill (torch_zeros [T; num_layers self; B; hidden_size self])
                    nan) [])
       = Ok st /\
       written st = pair 0 <$> seq 0 Lh /\
       (forall l, l < Lh ->
          recurrence_at tanh self X hidden_0 grid 0 l /\
          index2 (hidden_states st) 0 (Z.of_nat l) = Ok (grid 0 l)) /\
       select0 hidden_0 (Z.of_nat Lh) = Raise IndexError /\
       cell_update tanh self X hidden_0 0 Lh st = Raise IndexError /\
       forward_loops tanh self X (Some hidden_0) = Raise IndexError /\
       forward tanh self X (Some hidden_0) = Raise IndexError) /\
  (forall (X hidden_0 : Tensor) (Lh : nat),
     shape X = [T; B; D] ->
     shape hidden_0 = [Lh; B; hidden_size self] ->
     num_layers self < Lh ->
     forward tanh self X (Some hidden_0) = Raise AssertionError \/
     exists r, forward tanh self X (Some hidden_0) = Ok r).
Proof.
  intros HT HL Hok.
  assert (layer_okb self D 0 = true) as Hok0.
  { unfold params_okb in Hok. rewrite forallb_forall in Hok.
    apply Hok, in_seq. lia. }
  split_and!.
  - intros X hidden_0 D' Lh HX Hne Hh0 HLh.
    assert (forall st, cell_update tanh self X hidden_0 0 0 st = Raise RuntimeError)
      as Hcell.
    { intros st.
      by apply (first_cell_mismatch tanh self X hidden_0 T B D D' Lh st). }
    split; [|split; [exact Hcell|]].
    + by apply (first_cell_input_product self X hidden_0 T B D D' Lh).
    + by apply (forward_first_cell_error tanh self X hidden_0 T B D').
  - intros X hidden_0 D' H' Lh HX Hh0 Hne HLh.
    destruct (first_cell_recurrent_product tanh self X hidden_0 T B D D' H' Lh)
      as [Hprod Hcell]; [done..|].
    split; [exact Hprod|split; [exact Hcell|]].
    by apply (forward_first_cell_error tanh self X hidden_0 T B D').
  - intros X hidden_0 Lh HX Hh0 HLh.
    by apply (first_row_missing_layer tanh self X hidden_0 T B D Lh).
  - intros X hidden_0 Lh HX Hh0 HLh.
    destruct (forward_conformant tanh self X hidden_0 T B D Lh)
      as (G & outs & final & _ & _ & Hfwd & _); [done|done|lia|done..|].
    rewrite Hfwd. destruct (existsb isnan_any G); eauto.
Qed.

Lemma select1_Raise t j e : select1 t j = Raise e -> e = IndexError.
Proof.
  unfold select1, norm_index. destruct (shape t) as [|n0 [|n1 s]]; [congruence..|].
  repeat case_decide; simpl; congruence.
Qed.

(** C10: for an input with an empty first dimension the loops run no
    iteration and the assertion passes on the empty grid, but [forward] does
    not return a pair of empty tensors: reading [hidden_states[-1]] indexes
    the empty time dimension and raises [IndexError]. *)
Theorem forward_empty_sequence (self : MyRNN) (X : Tensor)
    (hidden_0 : option Tensor) (B : nat) (s : list nat) :
  shape X = 0 :: B :: s ->
  (exists st,
     forward_loops tanh self X hidden_0 = Ok st /\
     written st = [] /\
     isnan_any (hidden_states st) = false /\
     select0 (hidden_states st) (-1) = Raise IndexError) /\
  forward tanh self X hidden_0 = Raise IndexError.
Proof.
  intros HX.
  assert (forward_loops tanh self X hidden_0
          = Ok (mkLoop (fill (torch_zeros
                   [0; num_layers self; B; hidden_size self]) nan) [])) as Hst.
  { unfold forward_loops, shape_at. by rewrite HX. }
  assert (select0 (fill (torch_zeros
            [0; num_layers self; B; hidden_size self]) nan) (-1)
          = Raise IndexError) as Hlast.
  { unfold select0, fill, torch_zeros. cbn [shape].
    by rewrite norm_index_empty. }
  assert (isnan_any (fill (torch_zeros
            [0; num_layers self; B; hidden_size self]) nan) = false) as Hnan
    by reflexivity.
  split.
  - eexists. split_and!; [exact Hst|done|exact Hnan|exact Hlast].
  - unfold forward. rewrite Hst. cbn [bind hidden_states].
    rewrite Hnan, Hlast.
    destruct (select1 _ (-1)) as [outs|e] eqn:E; [done|].
    by apply select1_Raise in E as ->.
Qed.

End Properties.

(** ** Runs of the sample models *)

Example forward_sample :
  forward unused_tanh sample_model sample_X (Some sample_hidden_0)
  = Ok (mkTensor [2; 1; 2] [41; 25; 271; 137]%float,
        mkTensor [2; 1; 2] [111; 227; 271; 137]%float).
Proof. vm_compute. reflexivity. Qed.

Example forward_sample_default :
  forward unused_tanh sample_model sample_X None
  = Ok (mkTensor [2; 1; 2] [27; 16; 198; 101]%float,
        mkTensor [2; 1; 2] [84; 168; 198; 101]%float).
Proof. vm_compute. reflexivity. Qed.

Example activation_misspelled :
  activation_func (MyRNN_init (mkRNN 1 1 [] "ReLU")) = torch_tanh
  /\ activation_func (MyRNN_init (mkRNN 1 1 [] "tanh")) = torch_tanh
  /\ activation_func (MyRNN_init (mkRNN 1 1 [] "relu")) = torch_relu.
Proof. repeat split. Qed.

Example relu_keeps_nan : PrimFloat.is_nan (relu nan) = true.
Proof. reflexivity. Qed.

(** The step of layer 0 of the sample model on one batch row. *)
Lemma compute_new_hidden_state_correct_witness :
  let prev := mkTensor [1; 2] [1; 2]%float in
  let inp := mkTensor [1; 3] [1; 2; 3]%float in
  let w_hh := matrix 2 2 [1; 2; 3; 4]%float in
  let w_ih := matrix 2 3 [1; 0; 1; 0; 1; 0]%float in
  let b_hh := OTensor (vector [10; 20]%float) in
  (shape prev = [1; 2] /\ shape inp = [1; 3] /\
   shape w_hh = [2; 2] /\ wf w_hh /\ shape w_ih = [2; 3] /\ wf w_ih /\
   bias_conformant 2 b_hh /\ bias_conformant 2 OInt0) /\
  compute_new_hidden_state unused_tanh prev inp (Some w_hh) b_hh (Some w_ih)
    OInt0 torch_relu
  = Ok (new_hidden_formula unused_tanh 1 2 3 prev inp w_hh b_hh w_ih OInt0
          torch_relu).
Proof.
  intros prev inp w_hh w_ih b_hh. split.
  - repeat split.
  - apply (compute_new_hidden_state_correct unused_tanh 1 2 3);
      repeat split.
Defined.

Lemma forward_grid_recurrence_witness :
  (shape sample_X = [2; 1; 3] /\
   shape sample_hidden_0 = [num_layers sample_model; 1; hidden_size sample_model] /\
   params_okb sample_model 3 = true /\ 0 < 2 /\ 0 < num_layers sample_model) /\
  exists grid : nat -> nat -> Tensor,
    recurrence unused_tanh sample_model sample_X sample_hidden_0 2 grid /\
    ((forall t l, t < 2 -> l < num_layers sample_model ->
        isnan_any (grid t l) = false) ->
     exists outs final,
       forward unused_tanh sample_model sample_X (Some sample_hidden_0)
       = Ok (outs, final) /\
       (forall t, t < 2 ->
          select0 outs (Z.of_nat t) = Ok (grid t (num_layers sample_model - 1))) /\
       (forall l, l < num_layers sample_model ->
          select0 final (Z.of_nat l) = Ok (grid (2 - 1) l))) /\
    ((exists t l, t < 2 /\ l < num_layers sample_model /\
                  isnan_any (grid t l) = true) ->
     forward unused_tanh sample_model sample_X (Some sample_hidden_0)
     = Raise AssertionError).
Proof.
  split.
  - split_and!; [reflexivity..|simpl; lia|simpl; lia].
  - apply (forward_grid_recurrence unused_tanh sample_model sample_X
             sample_hidden_0 2 1 3); [reflexivity..|simpl; lia|simpl; lia].
Defined.

(** An empty sequence, and a NaN among the inputs: [forward] does not
    return. *)
Lemma forward_grid_recurrence_counterexample :
  (shape sample_X_empty = [0; 1; 3] /\ shape sample_X_nan = [2; 1; 3] /\
   shape sample_hidden_0 = [num_layers sample_model; 1; hidden_size sample_model] /\
   params_okb sample_model 3 = true) /\
  forward unused_tanh sample_model sample_X_empty (Some sample_hidden_0)
  = Raise IndexError /\
  forward unused_tanh sample_model sample_X_nan (Some sample_hidden_0)
  = Raise AssertionError.
Proof. vm_compute. repeat split. Qed.

Lemma forward_shape_mismatch_lazy_witness :
  (0 < 2 /\ 0 < num_layers sample_model /\ params_okb sample_model 3 = true) /\
  ((shape sample_X_wide = [2; 1; 4] /\ 4 <> 3 /\
    shape sample_hidden_0_short = [1; 1; hidden_size sample_model] /\ 0 < 1) /\
   (exists inp wih_T,
      select0 sample_X_wide 0 = Ok inp /\
      attr_T (get sample_model "weight_ih_l0") = Ok wih_T /\
      matmul inp wih_T = Raise RuntimeError) /\
   forward unused_tanh sample_model sample_X_wide (Some sample_hidden_0_short)
   = Raise RuntimeError) /\
  ((shape sample_X = [2; 1; 3] /\
    shape sample_hidden_0_thin = [2; 1; 3] /\ 3 <> hidden_size sample_model /\
    0 < 2) /\
   (exists prev whh_T,
      select0 sample_hidden_0_thin 0 = Ok prev /\
      attr_T (get sample_model "weight_hh_l0") = Ok whh_T /\
      matmul prev whh_T = Raise RuntimeError) /\
   forward unused_tanh sample_model sample_X (Some sample_hidden_0_thin)
   = Raise RuntimeError) /\
  ((shape sample_X = [2; 1; 3] /\
    shape sample_hidden_0_short = [1; 1; hidden_size sample_model] /\
    1 < num_layers sample_model) /\
   (exists st,
      for_each (seq 0 1)
        (fun layer =>
           cell_update unused_tanh sample_model sample_X sample_hidden_0_short
             0 layer)
        (mkLoop (fill (torch_zeros [2; num_layers sample_model; 1;
                                    hidden_size sample_model]) nan) [])
      = Ok st /\
      written st = [(0, 0)] /\
      cell_update unused_tanh sample_model sample_X sample_hidden_0_short 0 1 st
      = Raise IndexError) /\
   forward unused_tanh sample_model sample_X (Some sample_hidden_0_short)
   = Raise IndexError) /\
  ((shape sample_X = [2; 1; 3] /\
    shape sample_hidden_0_extra = [3; 1; hidden_size sample_model] /\
    num_layers sample_model < 3) /\
   (forward unused_tanh sample_model sample_X (Some sample_hidden_0_extra)
    = Raise AssertionError \/
    exists r,
      forward unused_tanh sample_model sample_X (Some sample_hidden_0_extra)
      = Ok r)).
Proof.
  assert (0 < 2) as HT by lia.
  assert (0 < num_layers sample_model) as HL by (simpl; lia).
  assert (params_okb sample_model 3 = true) as Hok by reflexivity.
  destruct (forward_shape_mismatch_lazy unused_tanh sample_model 2 1 3 HT HL Hok)
    as (Hwide & Hthin & Hshort & Hextra).
  split; [done|]. split; [|split; [|split]].
  - split.
    + split_and!; [reflexivity|lia|reflexivity|lia].
    + destruct (Hwide sample_X_wide sample_hidden_0_short 4 1)
        as ((prev & inp & whh_T & hh & s1 & wih_T & _ & Hinp & _ & _ & _
             & Hw & Hprod) & _ & _ & Hfwd);
        [reflexivity|lia|reflexivity|lia|].
      split; [|exact Hfwd]. by exists inp, wih_T.
  - split.
    + split_and!; [reflexivity|reflexivity|simpl; lia|lia].
    + destruct (Hthin sample_X sample_hidden_0_thin 3 3 2)
        as ((prev & inp & whh_T & Hprev & _ & Hw & Hprod) & _ & _ & Hfwd);
        [reflexivity|reflexivity|simpl; lia|lia|].
      split; [|exact Hfwd]. by exists prev, whh_T.
  - split.
    + split_and!; [reflexivity|reflexivity|simpl; lia].
    + destruct (Hshort sample_X sample_hidden_0_short 1)
        as (st & grid & Hrun & Hlog & _ & _ & Hcell & _ & Hfwd);
        [reflexivity|reflexivity|simpl; lia|].
      split; [|exact Hfwd]. by exists st.
  - split.
    + split_and!; [reflexivity|reflexivity|simpl; lia].
    + apply (Hextra sample_X sample_hidden_0_extra 3);
        [reflexivity|reflexivity|simpl; lia].
Defined.

(** A [hidden_0] of three layers for a model of two: the shapes disagree
    with the contract, and [forward] returns all the same. *)
Lemma forward_shape_check_counterexample :
  shape sample_X = [2; 1; 3] /\
  shape sample_hidden_0_extra = [3; 1; 2] /\
  num_layers sample_model = 2 /\
  params_okb sample_model 3 = true /\
  forward unused_tanh sample_model sample_X (Some sample_hidden_0_extra)
  = Ok (mkTensor [2; 1; 2] [41; 25; 271; 137]%float,
        mkTensor [2; 1; 2] [111; 227; 271; 137]%float).
Proof. vm_compute. repeat split. Qed.

Lemma forward_loops_cover_grid_witness :
  (shape small_X = [3; 1; 1] /\
   shape small_hidden_0 = [num_layers single_model; 1; hidden_size single_model] /\
   params_okb single_model 1 = true) /\
  exists (st : loop_state) (grid : nat -> nat -> Tensor),
    forward_loops unused_tanh single_model small_X (Some small_hidden_0) = Ok st /\
    recurrence unused_tanh single_model small_X small_hidden_0 3 grid /\
    NoDup (written st) /\
    (forall t l, (t, l) ∈ written st <-> t < 3 /\ l < num_layers single_model) /\
    (forall t l, t < 3 -> l < num_layers single_model ->
       index2 (hidden_states st) (Z.of_nat t) (Z.of_nat l) = Ok (grid t l)) /\
    (isnan_any (hidden_states st) = true <->
     exists t l, t < 3 /\ l < num_layers single_model /\
                 isnan_any (grid t l) = true) /\
    (0 < 3 -> 0 < num_layers single_model ->
     (forall t l, t < 3 -> l < num_layers single_model ->
        isnan_any (grid t l) = false) ->
     exists r, forward unused_tanh single_model small_X (Some small_hidden_0) = Ok r).
Proof.
  split.
  - repeat split.
  - apply (forward_loops_cover_grid unused_tanh single_model small_X
             small_hidden_0 3 1 1); reflexivity.
Defined.

(** Finite inputs, no NaN anywhere: the input product overflows to
    [+infinity], the recurrent one to [-infinity], their sum is NaN, and the
    assertion fires on the cell the loop has just written. *)
Lemma forward_assertion_counterexample :
  (shape huge_X = [1; 1; 1] /\
   shape huge_hidden_0 = [num_layers single_model; 1; hidden_size single_model] /\
   params_okb single_model 1 = true) /\
  (isnan_any huge_X = false /\ isnan_any huge_hidden_0 = false /\
   existsb (fun kv => isnan_any kv.2) (named_parameters single_rnn) = false) /\
  forward_loops unused_tanh single_model huge_X (Some huge_hidden_0)
  = Ok (mkLoop (mkTensor [1; 1; 1; 1] [nan]) [(0, 0)]) /\
  forward unused_tanh single_model huge_X (Some huge_hidden_0)
  = Raise AssertionError.
Proof. vm_compute. repeat split. Qed.

Lemma forward_default_hidden_0_witness :
  shape_at sample_X 1 = Ok 1 /\
  forward unused_tanh sample_model sample_X None
  = forward unused_tanh sample_model sample_X
      (Some (torch_zeros [num_layers sample_model; 1; hidden_size sample_model])).
Proof.
  split; [reflexivity|].
  apply (forward_default_hidden_0 unused_tanh sample_model sample_X 1).
  reflexivity.
Defined.

Lemma activation_selection_witness :
  (activation_func (MyRNN_init sample_rnn) = torch_relu
   <-> nonlinearity sample_rnn = "relu") /\
  (activation_func (MyRNN_init sample_rnn) = torch_tanh
   <-> nonlinearity sample_rnn <> "relu").
Proof. apply (activation_selection sample_rnn). Defined.

Lemma forward_bias_absent_is_zero_bias_witness :
  (bias_freeb sample_model_no_bias = true /\
   params_okb sample_model_no_bias 3 = true) /\
  forward unused_tanh sample_model_no_bias sample_X (Some sample_hidden_0)
  = forward unused_tanh (zero_biases sample_model_no_bias) sample_X
      (Some sample_hidden_0).
Proof.
  split; [split; reflexivity|].
  apply (forward_bias_absent_is_zero_bias unused_tanh sample_model_no_bias
           sample_X (Some sample_hidden_0) 3); reflexivity.
Defined.

Lemma single_layer_final_hidden_witness :
  let outs := mkTensor [3; 1; 1] [2; 0; 6]%float in
  let final := mkTensor [1; 1; 1] [6]%float in
  (num_layers single_model = 1 /\
   forward unused_tanh single_model small_X (Some small_hidden_0)
   = Ok (outs, final)) /\
  exists (T : nat) (c : Tensor),
    shape_at small_X 0 = Ok T /\
    select0 final 0 = Ok c /\
    select0 outs (Z.of_nat T - 1) = Ok c /\
    select0 outs (-1) = Ok c.
Proof.
  intros outs final. split.
  - split; [reflexivity|]. vm_compute. reflexivity.
  - apply (single_layer_final_hidden unused_tanh single_model small_X
             (Some small_hidden_0) outs final); [reflexivity|].
    vm_compute. reflexivity.
Defined.

Lemma forward_reads_hidden_0_prefix_witness :
  (forall l, l < num_layers sample_model ->
     select0 sample_hidden_0_extra (Z.of_nat l)
     = select0 sample_hidden_0 (Z.of_nat l)) /\
  forward unused_tanh sample_model sample_X (Some sample_hidden_0_extra)
  = forward unused_tanh sample_model sample_X (Some sample_hidden_0).
Proof.
  assert (forall l, l < num_layers sample_model ->
            select0 sample_hidden_0_extra (Z.of_nat l)
            = select0 sample_hidden_0 (Z.of_nat l)) as Hagree.
  { intros l Hl. simpl in Hl.
    destruct l as [|[|l]]; [reflexivity|reflexivity|lia]. }
  split; [exact Hagree|].
  apply (proj1 (forward_reads_hidden_0_prefix unused_tanh sample_model sample_X)).
  exact Hagree.
Defined.

Lemma forward_empty_sequence_witness :
  shape sample_X_empty = [0; 1; 3] /\
  (exists st,
     forward_loops unused_tanh sample_model sample_X_empty None = Ok st /\
     written st = [] /\
     isnan_any (hidden_states st) = false /\
     select0 (hidden_states st) (-1) = Raise IndexError) /\
  forward unused_tanh sample_model sample_X_empty None = Raise IndexError.
Proof.
  split; [reflexivity|].
  apply (forward_empty_sequence unused_tanh sample_model sample_X_empty None 1 [3]).
  reflexivity.
Defined.

(** * Further properties of the notebook *)

(** ** What holds of every run of the loops *)

Lemma for_each_seq_post {St} (Inv : nat -> St -> Prop)
    (body : nat -> St -> result St) n s s' :
  Inv 0 s ->
  (forall i s0 s1, i < n -> Inv i s0 -> body i s0 = Ok s1 -> Inv (S i) s1) ->
  for_each (seq 0 n) body s = Ok s' -> Inv n s'.
Proof.
  intros H0 Hstep.
  assert (forall m a s0, a + m = n -> Inv a s0 ->
            for_each (seq a m) body s0 = Ok s' -> Inv n s') as Hgen.
  { induction m as [|m IH]; intros a s0 Ham Ha Hrun.
    - injection Hrun as <-. by replace n with a by lia.
    - simpl in Hrun. apply bind_Ok in Hrun as (s1 & H1 & Hrun).
      apply (IH (S a) s1); [lia| |done]. apply (Hstep a s0); [lia|done..]. }
  by apply (Hgen n 0).
Qed.

Lemma cell_update_written tanh self X h0 idx layer st st' :
  cell_update tanh self X h0 idx layer st = Ok st' ->
  written st' = written st ++ [(idx, layer)].
Proof.
  unfold cell_update. intros Hrun.
  do 5 apply bind_Ok in Hrun as (? & _ & Hrun). by injection Hrun as <-.
Qed.

Lemma forward_loops_written tanh self X hidden_0 st T :
  shape_at X 0 = Ok T ->
  forward_loops tanh self X hidden_0 = Ok st ->
  written st = cells_before (num_layers self) T 0.
Proof.
  intros HT. unfold forward_loops. rewrite HT. cbn [bind].
  intros (B & HB & Hrun)%bind_Ok.
  apply (for_each_seq_post
           (fun idx st => written st = cells_before (num_layers self) idx 0))
    in Hrun; [done|done|].
  intros idx s0 s1 Hidx Hs0 Hrow.
  apply (for_each_seq_post
           (fun layer st => written st = cells_before (num_layers self) idx layer))
    in Hrow.
  - rewrite Hrow. unfold cells_before.
    rewrite seq_S, bind_app. simpl. by rewrite !app_nil_r.
  - done.
  - intros layer s2 s3 Hlayer Hs2 Hcell.
    rewrite (cell_update_written _ _ _ _ _ _ _ _ Hcell), Hs2.
    unfold cells_before. by rewrite seq_S, fmap_app, app_assoc.
Qed.

(** ** The shapes of the two views *)

Lemma views_shape T L B H d outs final :
  length d = numel [T; L; B; H] ->
  select1 (mkTensor [T; L; B; H] d) (-1) = Ok outs ->
  select0 (mkTensor [T; L; B; H] d) (-1) = Ok final ->
  0 < T /\ 0 < L /\
  shape outs = [T; B; H] /\ wf outs /\
  shape final = [L; B; H] /\ wf final.
Proof.
  intros Hd Houts Hfinal.
  rewrite (numel_cons T), (numel_cons L) in Hd.
  assert (0 < T) as HT.
  { destruct T; [|lia]. unfold select0 in Hfinal. cbn [shape] in Hfinal.
    by rewrite norm_index_empty in Hfinal. }
  assert (0 < L) as HL.
  { destruct L; [|lia]. unfold select1 in Houts. cbn [shape] in Houts.
    by rewrite norm_index_empty in Houts. }
  unfold select1 in Houts. cbn [shape data] in Houts.
  rewrite norm_index_last in Houts by done. injection Houts as <-.
  unfold select0 in Hfinal. cbn [shape data] in Hfinal.
  rewrite norm_index_last in Hfinal by done. injection Hfinal as <-.
  split_and!; [done..| |done|].
  - unfold wf. cbn [shape data]. rewrite (numel_cons T).
    apply length_bind_seq. intros a Ha. apply length_block. rewrite Hd.
    pose proof (cell_index_lt T L a (L - 1) Ha ltac:(lia)).
    assert ((a * L + (L - 1) + 1) * numel [B; H] <= T * L * numel [B; H])
      by (apply Nat.mul_le_mono_r; lia). lia.
  - unfold wf. cbn [shape data]. apply length_block. rewrite Hd.
    assert ((T - 1 + 1) * numel [L; B; H] <= T * numel [L; B; H])
      by (apply Nat.mul_le_mono_r; lia).
    rewrite (numel_cons L) in *. lia.
Qed.

Lemma forward_Ok_inv tanh self X hidden_0 outs final :
  forward tanh self X hidden_0 = Ok (outs, final) ->
  exists st T B,
    forward_loops tanh self X hidden_0 = Ok st /\
    shape_at X 0 = Ok T /\ shape_at X 1 = Ok B /\
    grid_shape [T; num_layers self; B; hidden_size self] st /\
    isnan_any (hidden_states st) = false /\
    select1 (hidden_states st) (-1) = Ok outs /\
    select0 (hidden_states st) (-1) = Ok final.
Proof.
  unfold forward. intros (st & Hst & Hfwd)%bind_Ok.
  destruct (isnan_any (hidden_states st)) eqn:Hnan; [done|].
  apply bind_Ok in Hfwd as (outs' & Houts & Hfwd).
  apply bind_Ok in Hfwd as (final' & Hfinal & [= -> ->]).
  destruct (forward_loops_shape _ _ _ _ _ Hst) as (T & B & HT & HB & Hs).
  by exists st, T, B.
Qed.

Lemma existsb_false_Forall {A} (p : A -> bool) (l : list A) :
  existsb p l = false <-> Forall (fun x => p x = false) l.
Proof.
  induction l as [|x l IH]; simpl; [by split|].
  rewrite orb_false_iff, IH, Forall_cons. done.
Qed.

Section Elements.

Variable P : float -> Prop.

Lemma block_Forall i sz d : Forall P d -> Forall P (block i sz d).
Proof. intros Hd. unfold block. by apply Forall_take, Forall_drop. Qed.

Lemma select0_Forall t i r :
  Forall P (data t) -> select0 t i = Ok r -> Forall P (data r).
Proof.
  intros Ht. unfold select0. destruct (shape t) as [|n s]; [done|].
  intros (k & _ & [= <-])%bind_Ok. by apply block_Forall.
Qed.

Lemma select1_Forall t j r :
  Forall P (data t) -> select1 t j = Ok r -> Forall P (data r).
Proof.
  intros Ht. unfold select1. destruct (shape t) as [|n0 [|n1 s]]; [done..|].
  intros (k & _ & [= <-])%bind_Ok. simpl.
  apply Forall_bind, Forall_forall. intros a _. by apply block_Forall.
Qed.

Lemma expand_data_Forall from to d :
  Forall P d -> Forall P (expand_data from to d).
Proof.
  revert to d. induction from as [|a from IH]; intros to d Hd; [done|].
  destruct to as [|b to]; [done|]. rewrite expand_data_cons.
  destruct (decide (a = b)).
  - apply Forall_bind, Forall_forall. intros i _. by apply IH, block_Forall.
  - apply Forall_join, Forall_replicate. by apply IH, block_Forall.
Qed.

Lemma setitem2_Forall t i j v t' :
  Forall P (data t) -> Forall P (data v) ->
  setitem2 t i j v = Ok t' -> Forall P (data t').
Proof.
  intros Ht Hv. unfold setitem2. destruct (shape t) as [|n0 [|n1 s]]; [done..|].
  intros (a & _ & Hset)%bind_Ok. apply bind_Ok in Hset as (b & _ & Hset).
  case_decide; [|done]. injection Hset as <-. simpl.
  apply Forall_inserts; [done|]. by apply expand_data_Forall.
Qed.

End Elements.

Section Runs.

Variable tanh : float -> float.

(** X1: whenever [forward] returns, the sequence length and the number of
    layers are positive, the first view has shape [T, B, H] and the second
    [num_layers, B, H], for [T = X.shape[0]] and [B = X.shape[1]], and each
    holds exactly the numbers its shape asks for, whatever the operands
    were. *)
Theorem forward_output_shapes (self : MyRNN) (X : Tensor)
    (hidden_0 : option Tensor) (outs final : Tensor) :
  forward tanh self X hidden_0 = Ok (outs, final) ->
  exists T B,
    shape_at X 0 = Ok T /\ shape_at X 1 = Ok B /\
    0 < T /\ 0 < num_layers self /\
    shape outs = [T; B; hidden_size self] /\ wf outs /\
    shape final = [num_layers self; B; hidden_size self] /\ wf final.
Proof.
  intros (st & T & B & _ & HT & HB & [Hs Hlen] & _ & Houts & Hfinal)%forward_Ok_inv.
  destruct (hidden_states st) as [s d]. simpl in Hs, Hlen. subst s.
  exists T, B. split; [done|]. split; [done|].
  by apply (views_shape T (num_layers self) B (hidden_size self) d).
Qed.

(** X2: whatever [forward] returns holds no NaN: the assertion after the
    loops lets none through to either view. *)
Theorem forward_outputs_have_no_nan (self : MyRNN) (X : Tensor)
    (hidden_0 : option Tensor) (outs final : Tensor) :
  forward tanh self X hidden_0 = Ok (outs, final) ->
  isnan_any outs = false /\ isnan_any final = false.
Proof.
  intros (st & T & B & _ & _ & _ & _ & Hnan & Houts & Hfinal)%forward_Ok_inv.
  unfold isnan_any in *. apply existsb_false_Forall in Hnan.
  split; apply existsb_false_Forall.
  - exact (select1_Forall _ _ _ _ Hnan Houts).
  - exact (select0_Forall _ _ _ _ Hnan Hfinal).
Qed.

(** X3: the last element of the output sequence and the last layer of the
    final hidden state are the same tensor, the hidden state of the top
    layer at the last time step, whenever [forward] returns. *)
Theorem forward_last_output_is_top_final (self : MyRNN) (X : Tensor)
    (hidden_0 : option Tensor) (outs final : Tensor) :
  forward tanh self X hidden_0 = Ok (outs, final) ->
  exists c, select0 outs (-1) = Ok c /\ select0 final (-1) = Ok c.
Proof.
  intros (st & T & B & _ & HT & HB & [Hs Hlen] & _ & Houts & Hfinal)%forward_Ok_inv.
  destruct (hidden_states st) as [s d]. simpl in Hs, Hlen. subst s.
  destruct (views_shape T (num_layers self) B (hidden_size self) d outs final)
    as (HTpos & HLpos & _); [done..|].
  set (L := num_layers self) in *. set (H := hidden_size self) in *.
  unfold select1 in Houts. cbn [shape data] in Houts.
  rewrite norm_index_last in Houts by done. injection Houts as <-.
  unfold select0 in Hfinal. cbn [shape data] in Hfinal.
  rewrite norm_index_last in Hfinal by done. injection Hfinal as <-.
  exists (mkTensor [B; H] (block ((T - 1) * L + (L - 1)) (numel [B; H]) d)).
  unfold select0. cbn [shape data]. rewrite !norm_index_last by done.
  cbn [bind]. split.
  - rewrite (block_bind_seq _ T (numel [B; H])); [done| |lia].
    intros a Ha. apply length_block.
    rewrite Hlen, (numel_cons T), (numel_cons L).
    pose proof (cell_index_lt T L a (L - 1) Ha ltac:(lia)).
    assert ((a * L + (L - 1) + 1) * numel [B; H] <= T * L * numel [B; H])
      by (apply Nat.mul_le_mono_r; lia). lia.
  - by rewrite (numel_cons L), block_block by lia.
Qed.

(** X4: the loops assign the cells in time-major order, every layer of a
    time step before any cell of the next: when they complete, the log of
    assignments is [(0,0), (0,1), ..., (0,L-1), (1,0), ...], up to
    [(T-1, L-1)]. *)
Theorem forward_loops_order (self : MyRNN) (X : Tensor)
    (hidden_0 : option Tensor) (st : loop_state) :
  forward_loops tanh self X hidden_0 = Ok st ->
  exists T,
    shape_at X 0 = Ok T /\
    written st = (t ← seq 0 T; pair t <$> seq 0 (num_layers self)).
Proof.
  intros Hst.
  destruct (forward_loops_shape _ _ _ _ _ Hst) as (T & B & HT & _).
  exists T. split; [done|].
  rewrite (forward_loops_written _ _ _ _ _ _ HT Hst).
  unfold cells_before. simpl. by rewrite app_nil_r.
Qed.

Lemma relu_not_negative x : not_negative (relu x).
Proof.
  unfold not_negative, relu.
  destruct (PrimFloat.ltb x 0) eqn:E; [reflexivity|exact E].
Qed.

Lemma compute_relu_not_negative prev inp w_hh b_hh w_ih b_ih c :
  compute_new_hidden_state tanh prev inp w_hh b_hh w_ih b_ih torch_relu = Ok c ->
  Forall not_negative (data c).
Proof.
  unfold compute_new_hidden_state. intros Hrun.
  do 7 apply bind_Ok in Hrun as (? & _ & Hrun). injection Hrun as <-.
  simpl. apply Forall_fmap, Forall_forall. intros y _. apply relu_not_negative.
Qed.

(** X5: a model built with nonlinearity "relu" returns no number below
    zero, in either view, whatever [X], [hidden_0] and the weights are. *)
Theorem forward_relu_not_negative (self : MyRNN) (X : Tensor)
    (hidden_0 : option Tensor) (outs final : Tensor) :
  activation_func self = torch_relu ->
  forward tanh self X hidden_0 = Ok (outs, final) ->
  Forall not_negative (data outs) /\ Forall not_negative (data final).
Proof.
  intros Hact (st & T & B & Hst & _ & _ & _ & _ & Houts & Hfinal)%forward_Ok_inv.
  assert (Forall not_negative (data (hidden_states st))) as Hgrid.
  { unfold forward_loops in Hst.
    apply bind_Ok in Hst as (T' & _ & Hst). apply bind_Ok in Hst as (B' & _ & Hst).
    eapply (for_each_preserves
              (fun st => Forall not_negative (data (hidden_states st))));
      [|..|exact Hst].
    - intros idx s0 s1 Hrow Hs0.
      eapply (for_each_preserves
                (fun st => Forall not_negative (data (hidden_states st))));
        [|exact Hs0|exact Hrow].
      intros layer s2 s3 Hcell Hs2. unfold cell_update in Hcell.
      do 3 apply bind_Ok in Hcell as (? & _ & Hcell).
      apply bind_Ok in Hcell as (h & Hh & Hcell).
      apply bind_Ok in Hcell as (hs' & Hset & [= <-]). simpl.
      rewrite Hact in Hh. apply compute_relu_not_negative in Hh.
      exact (setitem2_Forall _ _ _ _ _ _ Hs2 Hh Hset).
    - simpl. by apply Forall_replicate. }
  split.
  - exact (select1_Forall _ _ _ _ Hgrid Houts).
  - exact (select0_Forall _ _ _ _ Hgrid Hfinal).
Qed.

End Runs.

(** ** The parameter store *)

Lemma dict_snoc pairs k v : dict (pairs ++ [(k, v)]) = <[k := v]> (dict pairs).
Proof. unfold dict. by rewrite foldl_snoc. Qed.

Lemma dict_lookup pairs k v :
  NoDup pairs.*1 -> dict pairs !! k = Some v <-> (k, v) ∈ pairs.
Proof.
  induction pairs as [|[k' v'] pairs IH] using rev_ind; intros Hnd.
  { unfold dict. simpl. rewrite lookup_empty. split; [done|].
    by intros ?%elem_of_nil. }
  rewrite fmap_app in Hnd. apply NoDup_app in Hnd as (Hnd & Hfresh & _).
  rewrite dict_snoc, elem_of_app, list_elem_of_singleton.
  destruct (decide (k' = k)) as [->|Hne].
  - rewrite lookup_insert_eq. split.
    + intros [= ->]. by right.
    + intros [Hin| [= ->]]; [|done]. exfalso.
      apply (Hfresh k); [|simpl; left].
      apply list_elem_of_fmap. by exists (k, v).
  - rewrite lookup_insert_ne by done. rewrite IH by done.
    split; [by left|]. intros [?| [= ? ?]]; [done|congruence].
Qed.

(** X6: [__init__] files every named parameter of the wrapped model under
    its own name: when the names are distinct, looking a name up in the
    store gives a tensor exactly when the model lists that tensor under
    that name; a name the model does not list is absent, so that a bias
    read with default gives the integer 0 and a weight gives [None]. *)
Theorem init_params_lookup (rnn : RNN) :
  NoDup (named_parameters rnn).*1 ->
  (forall k v, get (MyRNN_init rnn) k = Some v <-> (k, v) ∈ named_parameters rnn)
  /\ (forall k, k ∉ (named_parameters rnn).*1 ->
        get (MyRNN_init rnn) k = None /\ get_or_0 (MyRNN_init rnn) k = OInt0).
Proof.
  intros Hnd. split.
  - intros k v. unfold get, MyRNN_init. simpl. by apply dict_lookup.
  - intros k Hk.
    assert (get (MyRNN_init rnn) k = None) as Hnone.
    { destruct (get (MyRNN_init rnn) k) as [v|] eqn:E; [|done]. exfalso.
      unfold get, MyRNN_init in E. simpl in E. apply dict_lookup in E; [|done].
      apply Hk, list_elem_of_fmap. by exists (k, v). }
    split; [done|]. unfold get_or_0. unfold get in Hnone. by rewrite Hnone.
Qed.

Section MissingWeight.

Variable tanh : float -> float.

(** X7: a missing recurrent weight is not defaulted as a missing bias is.
    When the store has no "weight_hh_l0", a call on a sequence of at least
    one time step, by a model of at least one layer, with no [hidden_0] or
    one whose first row can be read, raises [AttributeError] from the first
    step. *)
Theorem forward_missing_weight (self : MyRNN) (X : Tensor)
    (hidden_0 : option Tensor) (T B : nat) (s : list nat) :
  get self "weight_hh_l0" = None ->
  shape X = T :: B :: s -> 0 < T -> 0 < num_layers self ->
  (forall h, hidden_0 = Some h -> exists Lh sh, shape h = Lh :: sh /\ 0 < Lh) ->
  forward tanh self X hidden_0 = Raise AttributeError.
Proof.
  intros Hw HX HT HL Hh.
  unfold forward, forward_loops, shape_at. rewrite HX.
  cbn [lookup list_lookup bind].
  destruct T as [|T']; [lia|].
  destruct (num_layers self) as [|L'] eqn:EL; [lia|].
  cbn [seq for_each].
  match goal with
  | |- context [cell_update tanh self X ?h0 0 0 ?st] =>
      assert (cell_update tanh self X h0 0 0 st = Raise AttributeError) as ->;
        [|done]
  end.
  unfold cell_update. rewrite decide_True by done. cbn [bind].
  rewrite decide_True by done.
  destruct X as [sx dx]. simpl in HX. subst sx.
  rewrite (select0_nat (S T') _ _ 0) by lia. cbn [bind].
  assert (exists prev,
    select0 match hidden_0 with
            | Some h => h
            | None => torch_zeros [S L'; B; hidden_size self]
            end (Z.of_nat 0) = Ok prev) as [prev ->].
  { destruct hidden_0 as [h|].
    - destruct (Hh h eq_refl) as (Lh & sh & Hsh & HLh).
      destruct h as [s0 d0]. simpl in Hsh. subst s0.
      rewrite select0_nat by done. eauto.
    - unfold torch_zeros. rewrite select0_nat by lia. eauto. }
  cbn [bind].
  change ("weight_hh_l" +:+ pretty 0) with "weight_hh_l0".
  by rewrite Hw.
Qed.

End MissingWeight.

(** ** Runs at conformant shapes: what the outputs depend on *)

Lemma tensor_ext a b n s :
  shape a = n :: s -> shape b = n :: s -> wf a -> wf b ->
  (forall i, i < n -> select0 a (Z.of_nat i) = select0 b (Z.of_nat i)) ->
  a = b.
Proof.
  destruct a as [sa da], b as [sb db]. unfold wf. simpl.
  intros -> -> Ha Hb Hsel. rewrite numel_cons in Ha, Hb. f_equal.
  rewrite <- (join_blocks n (numel s) da), <- (join_blocks n (numel s) db) by done.
  apply bind_seq_ext. intros i Hi. specialize (Hsel i Hi).
  rewrite !select0_nat in Hsel by done. by injection Hsel.
Qed.

Lemma select0_app_l n m s d d2 t :
  length d = numel (n :: s) -> t < n ->
  select0 (mkTensor (n + m :: s) (d ++ d2)) (Z.of_nat t)
  = select0 (mkTensor (n :: s) d) (Z.of_nat t).
Proof.
  intros Hd Ht. rewrite !select0_nat by lia. do 2 f_equal.
  rewrite numel_cons in Hd. unfold block.
  assert ((t + 1) * numel s <= n * numel s) by (apply Nat.mul_le_mono_r; lia).
  rewrite drop_app_le, take_app_le by (rewrite ?length_drop; lia). done.
Qed.

Lemma select0_app_r n m s d d2 t :
  length d = numel (n :: s) -> t < m ->
  select0 (mkTensor (n + m :: s) (d ++ d2)) (Z.of_nat (n + t))
  = select0 (mkTensor (m :: s) d2) (Z.of_nat t).
Proof.
  intros Hd Ht. rewrite !select0_nat by lia. do 2 f_equal.
  rewrite numel_cons in Hd. unfold block.
  rewrite drop_app_ge by lia. do 2 f_equal. lia.
Qed.

Section Dependence.

Variable tanh : float -> float.

Lemma recurrence_shift self (X X' h0 h0' : Tensor)
    (g g' : nat -> nat -> Tensor) (a k : nat) :
  (forall l, l < num_layers self ->
     (if decide (a = 0) then select0 h0 (Z.of_nat l) else Ok (g (a - 1) l))
     = select0 h0' (Z.of_nat l)) ->
  (forall t, t < k -> select0 X (Z.of_nat (a + t)) = select0 X' (Z.of_nat t)) ->
  (forall t l, t < k -> l < num_layers self ->
     recurrence_at tanh self X h0 g (a + t) l) ->
  (forall t l, t < k -> l < num_layers self ->
     recurrence_at tanh self X' h0' g' t l) ->
  forall t l, t < k -> l < num_layers self -> g (a + t) l = g' t l.
Proof.
  intros Hinit HX Hrec Hrec'.
  induction t as [|t IHt]; intros l; induction l as [|l IHl]; intros Ht Hl;
    destruct (Hrec _ _ Ht Hl) as (prev & inp & Hp & Hi & Hs);
    destruct (Hrec' _ _ Ht Hl) as (prev' & inp' & Hp' & Hi' & Hs').
  - rewrite decide_True in Hi, Hi', Hp' by done.
    rewrite Nat.add_0_r in Hp. rewrite (Hinit 0 Hl), Hp' in Hp.
    rewrite (HX 0 Ht), Hi' in Hi. congruence.
  - rewrite decide_False in Hi, Hi' by done. rewrite decide_True in Hp' by done.
    rewrite Nat.add_0_r in Hp. rewrite (Hinit (S l) Hl), Hp' in Hp.
    replace (S l - 1) with l in Hi, Hi' by lia.
    rewrite IHl in Hi by lia. congruence.
  - rewrite decide_True in Hi, Hi' by done.
    rewrite decide_False in Hp by lia. rewrite decide_False in Hp' by lia.
    replace (a + S t - 1) with (a + t) in Hp by lia.
    replace (S t - 1) with t in Hp' by lia.
    rewrite IHt in Hp by lia. rewrite (HX (S t) Ht), Hi' in Hi. congruence.
  - rewrite decide_False in Hi, Hi' by lia.
    rewrite decide_False in Hp by lia. rewrite decide_False in Hp' by lia.
    replace (a + S t - 1) with (a + t) in Hp by lia.
    replace (S t - 1) with t in Hp' by lia.
    replace (S l - 1) with l in Hi, Hi' by lia.
    rewrite IHt in Hp by lia. rewrite IHl in Hi by lia. congruence.
Qed.

Lemma forward_conformant_run self X h0 T B D :
  shape X = [T; B; D] ->
  shape h0 = [num_layers self; B; hidden_size self] ->
  params_okb self D = true ->
  0 < T -> 0 < num_layers self ->
  exists G outs final,
    length G = T * num_layers self /\
    recurrence tanh self X h0 T (grid_of (num_layers self) G) /\
    forward tanh self X (Some h0)
    = (if existsb isnan_any G then Raise AssertionError else Ok (outs, final)) /\
    (shape outs = [T; B; hidden_size self] /\ wf outs) /\
    (shape final = [num_layers self; B; hidden_size self] /\ wf final) /\
    (forall t, t < T ->
       select0 outs (Z.of_nat t)
       = Ok (grid_of (num_layers self) G t (num_layers self - 1))) /\
    (forall l, l < num_layers self ->
       select0 final (Z.of_nat l) = Ok (grid_of (num_layers self) G (T - 1) l)).
Proof.
  intros HX Hh0 Hok HT HL.
  destruct (forward_loops_conformant tanh self X h0 T B D (num_layers self)
              HX Hh0 Hok) as (G & st & Hst & HlenG & HG & Hhs & _ & Hrec); [done|].
  destruct (grid_last_layer T _ B _ G HG HlenG HL) as (outs & Houts & Hso & Hout).
  destruct (grid_last_step T _ B _ G HG HlenG HT) as (final & Hfinal & Hsf & Hfin).
  destruct (views_shape T (num_layers self) B (hidden_size self)
              (mjoin (data <$> G)) outs final)
    as (_ & _ & _ & Hwo & _ & Hwf); [|done..|].
  { rewrite (length_grid_data B (hidden_size self)), HlenG by done.
    rewrite (numel_cons T), (numel_cons (num_layers self)). lia. }
  exists G, outs, final. split_and!; [done..| |done|done|done|done|done|done].
  unfold forward. rewrite Hst. cbn [bind]. rewrite Hhs, isnan_any_grid.
  destruct (existsb isnan_any G); [done|].
  rewrite Houts. cbn [bind]. by rewrite Hfinal.
Qed.

Lemma forward_Ok_positive self X hidden_0 outs final T B s :
  shape X = T :: B :: s ->
  forward tanh self X hidden_0 = Ok (outs, final) ->
  0 < T /\ 0 < num_layers self.
Proof.
  intros HX (st & T' & B' & _ & HT & HB & [Hs Hlen] & _ & Houts & Hfinal)%forward_Ok_inv.
  unfold shape_at in HT, HB. rewrite HX in HT, HB. simpl in HT, HB.
  injection HT as <-. injection HB as <-.
  destruct (hidden_states st) as [sh d]. simpl in Hs, Hlen. subst sh.
  destruct (views_shape T (num_layers self) B (hidden_size self) d outs final)
    as (? & ? & _); done.
Qed.

Lemma forward_conformant_Ok self X h0 T B D outs final :
  shape X = [T; B; D] ->
  shape h0 = [num_layers self; B; hidden_size self] ->
  params_okb self D = true ->
  forward tanh self X (Some h0) = Ok (outs, final) ->
  exists G,
    length G = T * num_layers self /\
    existsb isnan_any G = false /\
    recurrence tanh self X h0 T (grid_of (num_layers self) G) /\
    (shape outs = [T; B; hidden_size self] /\ wf outs) /\
    (shape final = [num_layers self; B; hidden_size self] /\ wf final) /\
    (forall t, t < T ->
       select0 outs (Z.of_nat t)
       = Ok (grid_of (num_layers self) G t (num_layers self - 1))) /\
    (forall l, l < num_layers self ->
       select0 final (Z.of_nat l) = Ok (grid_of (num_layers self) G (T - 1) l)).
Proof.
  intros HX Hh0 Hok Hfwd.
  destruct (forward_Ok_positive _ _ _ _ _ _ _ _ HX Hfwd) as [HT HL].
  destruct (forward_conformant_run self X h0 T B D HX Hh0 Hok HT HL)
    as (G & outs' & final' & HlenG & Hrec & Hrun & Hso & Hsf & Hout & Hfin).
  rewrite Hfwd in Hrun. exists G.
  destruct (existsb isnan_any G); [done|]. injection Hrun as -> ->.
  destruct Hso, Hsf. by split_and!.
Qed.

(** X8: the outputs are causal. For two input sequences that agree on
    their first [k] time steps, run from the same initial state by the same
    conformant model, the first [k] elements of the two output sequences
    are equal, whatever follows in either sequence. *)
Theorem forward_outputs_causal (self : MyRNN) (X X' hidden_0 : Tensor)
    (T T' B D k : nat) (outs final outs' final' : Tensor) :
  shape X = [T; B; D] -> shape X' = [T'; B; D] ->
  shape hidden_0 = [num_layers self; B; hidden_size self] ->
  params_okb self D = true ->
  k <= T -> k <= T' ->
  (forall t, t < k -> select0 X (Z.of_nat t) = select0 X' (Z.of_nat t)) ->
  forward tanh self X (Some hidden_0) = Ok (outs, final) ->
  forward tanh self X' (Some hidden_0) = Ok (outs', final') ->
  forall t, t < k -> select0 outs (Z.of_nat t) = select0 outs' (Z.of_nat t).
Proof.
  intros HX HX' Hh0 Hok Hk Hk' Hagree Hfwd Hfwd' t Ht.
  destruct (forward_conformant_Ok _ _ _ _ _ _ _ _ HX Hh0 Hok Hfwd)
    as (G & _ & _ & Hrec & _ & _ & Hout & _).
  destruct (forward_conformant_Ok _ _ _ _ _ _ _ _ HX' Hh0 Hok Hfwd')
    as (G' & _ & _ & Hrec' & _ & _ & Hout' & _).
  destruct (forward_Ok_positive _ _ _ _ _ _ _ _ HX Hfwd) as [_ HL].
  rewrite Hout, Hout' by lia. f_equal.
  apply (recurrence_shift self X X' hidden_0 hidden_0 _ _ 0 k); [..|done|lia].
  - intros l Hl. by rewrite decide_True.
  - done.
  - intros t0 l Ht0 Hl. apply Hrec; [simpl; lia|done].
  - intros t0 l Ht0 Hl. apply Hrec'; [lia|done].
Qed.

(** X9: a sequence can be fed in two pieces. When [forward] returns
    [(outs1, final1)] on [X1] from [hidden_0], and [(outs2, final2)] on
    [X2] from [final1], then on [X1] followed by [X2], from [hidden_0], it
    returns [outs1] followed by [outs2], and [final2]. *)
Theorem forward_in_two_pieces (self : MyRNN) (X1 X2 hidden_0 : Tensor)
    (T1 T2 B D : nat) (outs1 final1 outs2 final2 : Tensor) :
  shape X1 = [T1; B; D] -> wf X1 -> shape X2 = [T2; B; D] ->
  shape hidden_0 = [num_layers self; B; hidden_size self] ->
  params_okb self D = true ->
  forward tanh self X1 (Some hidden_0) = Ok (outs1, final1) ->
  forward tanh self X2 (Some final1) = Ok (outs2, final2) ->
  forward tanh self (mkTensor [T1 + T2; B; D] (data X1 ++ data X2)) (Some hidden_0)
  = Ok (mkTensor [T1 + T2; B; hidden_size self] (data outs1 ++ data outs2),
        final2).
Proof.
  intros HX1 Hwf1 HX2 Hh0 Hok Hfwd1 Hfwd2.
  destruct (forward_Ok_positive _ _ _ _ _ _ _ _ HX1 Hfwd1) as [HT1 HL].
  destruct (forward_Ok_positive _ _ _ _ _ _ _ _ HX2 Hfwd2) as [HT2 _].
  destruct (forward_conformant_Ok _ _ _ _ _ _ _ _ HX1 Hh0 Hok Hfwd1)
    as (G1 & HlenG1 & Hnan1 & Hrec1 & [Hso1 Hwo1] & [Hsf1 Hwf1'] & Hout1 & Hfin1).
  destruct (forward_conformant_Ok _ _ _ _ _ _ _ _ HX2 Hsf1 Hok Hfwd2)
    as (G2 & HlenG2 & Hnan2 & Hrec2 & [Hso2 Hwo2] & [Hsf2 Hwf2] & Hout2 & Hfin2).
  set (X12 := mkTensor [T1 + T2; B; D] (data X1 ++ data X2)).
  destruct (forward_conformant_run self X12 hidden_0 (T1 + T2) B D)
    as (G & outs & final & HlenG & Hrec & Hrun & [Hso Hwo] & [Hsf Hwf] & Hout & Hfin);
    [done..|lia|done|].
  set (L := num_layers self) in *. set (H := hidden_size self) in *.
  destruct X1 as [s1 d1]. destruct X2 as [s2 d2]. unfold wf in Hwf1.
  simpl in HX1, HX2, Hwf1. subst s1 s2. simpl in X12.
  (* the cells of the first piece *)
  assert (forall t l, t < T1 -> l < L -> grid_of L G t l = grid_of L G1 t l)
    as Hfirst.
  { intros t l Ht Hl.
    apply (recurrence_shift self X12 (mkTensor [T1; B; D] d1)
             hidden_0 hidden_0 _ _ 0 T1); [..|done|done].
    - intros l0 Hl0. by rewrite decide_True.
    - intros t0 Ht0. by apply select0_app_l.
    - intros t0 l0 Ht0 Hl0. apply Hrec; [simpl; lia|done].
    - intros t0 l0 Ht0 Hl0. by apply Hrec1. }
  (* the cells of the second piece *)
  assert (forall t l, t < T2 -> l < L ->
            grid_of L G (T1 + t) l = grid_of L G2 t l) as Hsecond.
  { intros t l Ht Hl.
    apply (recurrence_shift self X12 (mkTensor [T2; B; D] d2)
             hidden_0 final1 _ _ T1 T2); [..|done|done].
    - intros l0 Hl0. rewrite decide_False by lia.
      rewrite Hfin1 by done. f_equal. apply Hfirst; [lia|done].
    - intros t0 Ht0. by apply select0_app_r.
    - intros t0 l0 Ht0 Hl0. apply Hrec; [lia|done].
    - intros t0 l0 Ht0 Hl0. by apply Hrec2. }
  (* no NaN in the whole grid *)
  assert (existsb isnan_any G = false) as Hnan.
  { destruct (existsb isnan_any G) eqn:E; [|done]. exfalso.
    apply (existsb_grid (T1 + T2) L G HlenG) in E as (t & l & Ht & Hl & Hc).
    destruct (decide (t < T1)) as [Hlt|Hge].
    - rewrite Hfirst in Hc by done.
      assert (existsb isnan_any G1 = true) as E1
        by (apply (existsb_grid T1 L G1 HlenG1); eauto).
      congruence.
    - replace t with (T1 + (t - T1)) in Hc by lia.
      rewrite Hsecond in Hc by lia.
      assert (existsb isnan_any G2 = true) as E2.
      { apply (existsb_grid T2 L G2 HlenG2). exists (t - T1), l.
        split_and!; [lia|done|done]. }
      congruence. }
  rewrite Hrun, Hnan. do 2 f_equal.
  - destruct outs1 as [so1 do1]. destruct outs2 as [so2 do2].
    unfold wf in Hwo1, Hwo2. simpl in Hso1, Hso2, Hwo1, Hwo2. subst so1 so2.
    apply (tensor_ext _ _ (T1 + T2) [B; H]); [done|done|done| |].
    { unfold wf. simpl. rewrite length_app, Hwo1, Hwo2, !(numel_cons _ [B; H]).
      lia. }
    intros t Ht. rewrite Hout by done. simpl.
    destruct (decide (t < T1)) as [Hlt|Hge].
    + rewrite select0_app_l, Hout1, Hfirst by (done || lia). done.
    + replace t with (T1 + (t - T1)) by lia.
      rewrite select0_app_r, Hout2, Hsecond by (done || lia).
      do 3 f_equal.
  - apply (tensor_ext _ _ L [B; H]); [done..|].
    intros l Hl. rewrite Hfin, Hfin2 by done. f_equal.
    replace (T1 + T2 - 1) with (T1 + (T2 - 1)) by lia.
    apply Hsecond; [lia|done].
Qed.

End Dependence.

(** ** Batch rows *)

Lemma block_table n m F i : i < n -> block i m (table n m F) = F i <$> seq 0 m.
Proof.
  intros Hi. unfold table.
  apply (block_bind_seq (fun i => F i <$> seq 0 m) n); [|done].
  intros a _. by rewrite length_fmap, length_seq.
Qed.

Lemma select0_shape t i r n s :
  shape t = n :: s -> select0 t i = Ok r -> shape r = s.
Proof.
  intros Hs. unfold select0. rewrite Hs.
  by intros (k & _ & [= <-])%bind_Ok.
Qed.

Lemma select0_row_eq a a' B W b :
  shape a = [B; W] -> shape a' = [B; W] -> b < B ->
  select0 a (Z.of_nat b) = select0 a' (Z.of_nat b) ->
  block b W (data a) = block b W (data a').
Proof.
  destruct a as [s d], a' as [s' d']. simpl. intros -> -> Hb.
  rewrite !select0_nat by done.
  rewrite numel_cons, numel_nil, Nat.mul_1_r. by intros [= ->].
Qed.

Section BatchRows.

Variable tanh : float -> float.

Lemma new_hidden_formula_row B H D prev inp prev' inp' w_hh b_hh w_ih b_ih act b :
  b < B ->
  block b H (data prev) = block b H (data prev') ->
  block b D (data inp) = block b D (data inp') ->
  select0 (new_hidden_formula tanh B H D prev inp w_hh b_hh w_ih b_ih act)
    (Z.of_nat b)
  = select0 (new_hidden_formula tanh B H D prev' inp' w_hh b_hh w_ih b_ih act)
      (Z.of_nat b).
Proof.
  intros Hb Hprev Hinp. unfold new_hidden_formula.
  rewrite !select0_nat by done. do 2 f_equal.
  rewrite numel_cons, numel_nil, Nat.mul_1_r, !block_table by done.
  apply list_fmap_ext. intros _ h _. simpl. by rewrite Hprev, Hinp.
Qed.

Lemma layer_step_row self D l B prev inp prev' inp' c c' b :
  layer_okb self D l = true ->
  shape prev = [B; hidden_size self] -> shape prev' = [B; hidden_size self] ->
  shape inp = [B; if decide (l = 0) then D else hidden_size self] ->
  shape inp' = [B; if decide (l = 0) then D else hidden_size self] ->
  b < B ->
  select0 prev (Z.of_nat b) = select0 prev' (Z.of_nat b) ->
  select0 inp (Z.of_nat b) = select0 inp' (Z.of_nat b) ->
  layer_step tanh self l prev inp = Ok c ->
  layer_step tanh self l prev' inp' = Ok c' ->
  shape c = [B; hidden_size self] /\ shape c' = [B; hidden_size self] /\
  select0 c (Z.of_nat b) = select0 c' (Z.of_nat b).
Proof.
  intros Hok Hsp Hsp' Hsi Hsi' Hb Hrow Hrowi Hc Hc'. unfold layer_okb in Hok.
  apply andb_prop in Hok as [Hok Hbih]. apply andb_prop in Hok as [Hok Hbhh].
  apply andb_prop in Hok as [Hwhh Hwih].
  apply weight_okb_spec in Hwhh as (whh & Ehh & Hshh & Hwfhh).
  apply weight_okb_spec in Hwih as (wih & Eih & Hsih & Hwfih).
  apply bias_okb_spec in Hbhh. apply bias_okb_spec in Hbih.
  unfold layer_step in Hc, Hc'. rewrite Ehh, Eih in Hc, Hc'.
  rewrite (compute_new_hidden_state_formula tanh B (hidden_size self)
             (if decide (l = 0) then D else hidden_size self)) in Hc, Hc'
    by done.
  injection Hc as <-. injection Hc' as <-. split_and!; [done..|].
  apply new_hidden_formula_row; [done|..].
  - by apply (select0_row_eq prev prev' B).
  - by apply (select0_row_eq inp inp' B).
Qed.

Lemma recurrence_row self (X X' h0 h0' : Tensor) (g g' : nat -> nat -> Tensor)
    (T B D b : nat) :
  shape X = [T; B; D] -> shape X' = [T; B; D] ->
  shape h0 = [num_layers self; B; hidden_size self] ->
  shape h0' = [num_layers self; B; hidden_size self] ->
  params_okb self D = true -> b < B ->
  (forall t, t < T ->
     index2 X (Z.of_nat t) (Z.of_nat b) = index2 X' (Z.of_nat t) (Z.of_nat b)) ->
  (forall l, l < num_layers self ->
     index2 h0 (Z.of_nat l) (Z.of_nat b) = index2 h0' (Z.of_nat l) (Z.of_nat b)) ->
  recurrence tanh self X h0 T g -> recurrence tanh self X' h0' T g' ->
  forall t l, t < T -> l < num_layers self ->
    shape (g t l) = [B; hidden_size self] /\
    shape (g' t l) = [B; hidden_size self] /\
    select0 (g t l) (Z.of_nat b) = select0 (g' t l) (Z.of_nat b).
Proof.
  intros HX HX' Hh0 Hh0' Hok Hb HrowX Hrowh Hrec Hrec'.
  assert (forall l, l < num_layers self -> layer_okb self D l = true) as Hlayer.
  { intros l Hl. unfold params_okb in Hok. rewrite forallb_forall in Hok.
    apply Hok, in_seq. lia. }
  (* the cell above or the initial state, the cell below or the input *)
  assert (forall t l prev prev', t < T -> l < num_layers self ->
    (t <> 0 -> shape (g (t - 1) l) = [B; hidden_size self] /\
               shape (g' (t - 1) l) = [B; hidden_size self] /\
               select0 (g (t - 1) l) (Z.of_nat b)
               = select0 (g' (t - 1) l) (Z.of_nat b)) ->
    (if decide (t = 0) then select0 h0 (Z.of_nat l)
     else Ok (g (t - 1) l)) = Ok prev ->
    (if decide (t = 0) then select0 h0' (Z.of_nat l)
     else Ok (g' (t - 1) l)) = Ok prev' ->
    shape prev = [B; hidden_size self] /\ shape prev' = [B; hidden_size self] /\
    select0 prev (Z.of_nat b) = select0 prev' (Z.of_nat b)) as Hprev.
  { intros t l prev prev' Ht Hl IH Hp Hp'.
    destruct (decide (t = 0)) as [->|Hne].
    - split_and!;
        [exact (select0_shape _ _ _ _ _ Hh0 Hp)
        |exact (select0_shape _ _ _ _ _ Hh0' Hp')|].
      specialize (Hrowh l Hl). unfold index2 in Hrowh.
      by rewrite Hp, Hp' in Hrowh.
    - injection Hp as <-. injection Hp' as <-. by apply IH. }
  assert (forall t l inp inp', t < T -> l < num_layers self ->
    (l <> 0 -> shape (g t (l - 1)) = [B; hidden_size self] /\
               shape (g' t (l - 1)) = [B; hidden_size self] /\
               select0 (g t (l - 1)) (Z.of_nat b)
               = select0 (g' t (l - 1)) (Z.of_nat b)) ->
    (if decide (l = 0) then select0 X (Z.of_nat t)
     else Ok (g t (l - 1))) = Ok inp ->
    (if decide (l = 0) then select0 X' (Z.of_nat t)
     else Ok (g' t (l - 1))) = Ok inp' ->
    shape inp = [B; if decide (l = 0) then D else hidden_size self] /\
    shape inp' = [B; if decide (l = 0) then D else hidden_size self] /\
    select0 inp (Z.of_nat b) = select0 inp' (Z.of_nat b)) as Hinp.
  { intros t l inp inp' Ht Hl IH Hi Hi'.
    destruct (decide (l = 0)) as [->|Hne].
    - split_and!;
        [exact (select0_shape _ _ _ _ _ HX Hi)
        |exact (select0_shape _ _ _ _ _ HX' Hi')|].
      specialize (HrowX t Ht). unfold index2 in HrowX.
      by rewrite Hi, Hi' in HrowX.
    - injection Hi as <-. injection Hi' as <-. by apply IH. }
  assert (forall t l, t < T -> l < num_layers self ->
    (t <> 0 -> shape (g (t - 1) l) = [B; hidden_size self] /\
               shape (g' (t - 1) l) = [B; hidden_size self] /\
               select0 (g (t - 1) l) (Z.of_nat b)
               = select0 (g' (t - 1) l) (Z.of_nat b)) ->
    (l <> 0 -> shape (g t (l - 1)) = [B; hidden_size self] /\
               shape (g' t (l - 1)) = [B; hidden_size self] /\
               select0 (g t (l - 1)) (Z.of_nat b)
               = select0 (g' t (l - 1)) (Z.of_nat b)) ->
    shape (g t l) = [B; hidden_size self] /\
    shape (g' t l) = [B; hidden_size self] /\
    select0 (g t l) (Z.of_nat b) = select0 (g' t l) (Z.of_nat b)) as Hcell.
  { intros t l Ht Hl IHt IHl.
    destruct (Hrec _ _ Ht Hl) as (prev & inp & Hp & Hi & Hs).
    destruct (Hrec' _ _ Ht Hl) as (prev' & inp' & Hp' & Hi' & Hs').
    destruct (Hprev t l prev prev' Ht Hl IHt Hp Hp') as (? & ? & ?).
    destruct (Hinp t l inp inp' Ht Hl IHl Hi Hi') as (? & ? & ?).
    by apply (layer_step_row self D l B prev inp prev' inp'); auto. }
  induction t as [|t IHt]; intros l; induction l as [|l IHl]; intros Ht Hl;
    apply Hcell; try done.
  - intros _. replace (S l - 1) with l by lia. apply IHl; [done|lia].
  - intros _. replace (S t - 1) with t by lia. apply IHt; [lia|done].
  - intros _. replace (S t - 1) with t by lia. apply IHt; [lia|done].
  - intros _. replace (S l - 1) with l by lia. apply IHl; [done|lia].
Qed.

(** X10: batch elements do not mix. For two calls at conformant shapes
    whose inputs and initial states agree on batch element [b], at every
    time step and in every layer, the two results agree on batch element
    [b], whatever the other batch elements hold. *)
Theorem forward_batch_independent (self : MyRNN) (X X' hidden_0 hidden_0' : Tensor)
    (T B D b : nat) (outs final outs' final' : Tensor) :
  shape X = [T; B; D] -> shape X' = [T; B; D] ->
  shape hidden_0 = [num_layers self; B; hidden_size self] ->
  shape hidden_0' = [num_layers self; B; hidden_size self] ->
  params_okb self D = true -> b < B ->
  (forall t, t < T ->
     index2 X (Z.of_nat t) (Z.of_nat b) = index2 X' (Z.of_nat t) (Z.of_nat b)) ->
  (forall l, l < num_layers self ->
     index2 hidden_0 (Z.of_nat l) (Z.of_nat b)
     = index2 hidden_0' (Z.of_nat l) (Z.of_nat b)) ->
  forward tanh self X (Some hidden_0) = Ok (outs, final) ->
  forward tanh self X' (Some hidden_0') = Ok (outs', final') ->
  (forall t, t < T ->
     index2 outs (Z.of_nat t) (Z.of_nat b) = index2 outs' (Z.of_nat t) (Z.of_nat b))
  /\ (forall l, l < num_layers self ->
        index2 final (Z.of_nat l) (Z.of_nat b)
        = index2 final' (Z.of_nat l) (Z.of_nat b)).
Proof.
  intros HX HX' Hh0 Hh0' Hok Hb HrowX Hrowh Hfwd Hfwd'.
  destruct (forward_Ok_positive _ _ _ _ _ _ _ _ _ HX Hfwd) as [HT HL].
  destruct (forward_conformant_Ok _ _ _ _ _ _ _ _ _ HX Hh0 Hok Hfwd)
    as (G & _ & _ & Hrec & _ & _ & Hout & Hfin).
  destruct (forward_conformant_Ok _ _ _ _ _ _ _ _ _ HX' Hh0' Hok Hfwd')
    as (G' & _ & _ & Hrec' & _ & _ & Hout' & Hfin').
  pose proof (recurrence_row self X X' hidden_0 hidden_0' _ _ T B D b
                HX HX' Hh0 Hh0' Hok Hb HrowX Hrowh Hrec Hrec') as Hrows.
  split.
  - intros t Ht. unfold index2. rewrite Hout, Hout' by done. cbn [bind].
    apply Hrows; [done|lia].
  - intros l Hl. unfold index2. rewrite Hfin, Hfin' by done. cbn [bind].
    apply Hrows; [lia|done].
Qed.

End BatchRows.

(** ** The shape of a step *)

Lemma add_operand_out a b c la H :
  wf a -> shape a = la ++ [H] -> bias_conformant H b ->
  add_operand a b = Ok c -> wf c /\ exists lc, shape c = lc ++ [H].
Proof.
  intros Ha Hsa Hb. destruct b as [t|]; simpl.
  - destruct Hb as [Hst Hwt].
    by apply (torch_add_out a t c la []).
  - intros [= <-]. split; [|by exists la].
    unfold wf, add_scalar in *. simpl. by rewrite length_map.
Qed.

Lemma transpose_matrix w r c :
  shape w = [r; c] -> exists wT, transpose w = Ok wT /\ shape wT = [c; r].
Proof. intros Hs. unfold transpose. rewrite Hs. by eexists. Qed.

Section StepShape.

Variable tanh : float -> float.

(** X11: whatever the leading dimensions of the state and of the input,
    a step that returns, with weight matrices of [H] rows and biases that
    are absent or vectors of [H] numbers, returns a tensor that holds as
    many numbers as its shape says and whose last dimension is [H]. *)
Theorem compute_new_hidden_state_shape
    (previous_hidden_state inputs weight_hh weight_ih : Tensor)
    (bias_hh bias_ih : operand) (activation_func : Callable)
    (H K_hh K_ih : nat) (c : Tensor) :
  shape weight_hh = [H; K_hh] -> shape weight_ih = [H; K_ih] ->
  bias_conformant H bias_hh -> bias_conformant H bias_ih ->
  compute_new_hidden_state tanh previous_hidden_state inputs
    (Some weight_hh) bias_hh (Some weight_ih) bias_ih activation_func = Ok c ->
  wf c /\ exists lead, shape c = lead ++ [H].
Proof.
  intros Hshh Hsih Hbhh Hbih. unfold compute_new_hidden_state, attr_T.
  destruct (transpose_matrix _ _ _ Hshh) as (whhT & -> & HshhT).
  destruct (transpose_matrix _ _ _ Hsih) as (wihT & -> & HsihT).
  cbn [bind].
  intros (hh & Hhh & Hrest)%bind_Ok.
  apply bind_Ok in Hrest as (s1 & Hs1 & Hrest).
  apply bind_Ok in Hrest as (ih & Hih & Hrest).
  apply bind_Ok in Hrest as (s2 & Hs2 & Hrest).
  apply bind_Ok in Hrest as (s3 & Hs3 & [= <-]).
  apply matmul_out in Hhh as (Hwhh & l1 & k1 & n1 & E1 & Hshape1).
  rewrite HshhT in E1. injection E1 as <- <-.
  apply matmul_out in Hih as (Hwih & l2 & k2 & n2 & E2 & Hshape2).
  rewrite HsihT in E2. injection E2 as <- <-.
  destruct (add_operand_out _ _ _ _ _ Hwhh Hshape1 Hbhh Hs1) as (Hw1 & lc1 & Hsc1).
  destruct (torch_add_out _ _ _ _ _ _ Hw1 Hwih Hsc1 Hshape2 Hs2)
    as (Hw2 & lc2 & Hsc2).
  destruct (add_operand_out _ _ _ _ _ Hw2 Hsc2 Hbih Hs3) as (Hw3 & lc3 & Hsc3).
  split; [|by exists lc3].
  unfold wf, call, tmap in *. simpl. by rewrite length_fmap.
Qed.

End StepShape.

(** ** The parameters a call reads *)

Section Frame.

Variable tanh : float -> float.

(** X12: [forward] reads the parameters through the four names of each of
    its layers and nothing else of the store: two models with the same
    sizes and activation whose stores agree on these names, whatever else
    they hold (parameters of further layers, of a reverse direction),
    have the same outcome on every input, result or error. *)
Theorem forward_reads_layer_parameters (self self' : MyRNN) (X : Tensor)
    (hidden_0 : option Tensor) :
  num_layers self = num_layers self' ->
  hidden_size self = hidden_size self' ->
  activation_func self = activation_func self' ->
  (forall layer, layer < num_layers self ->
     get self ("weight_hh_l" +:+ pretty layer)
     = get self' ("weight_hh_l" +:+ pretty layer) /\
     get self ("bias_hh_l" +:+ pretty layer)
     = get self' ("bias_hh_l" +:+ pretty layer) /\
     get self ("weight_ih_l" +:+ pretty layer)
     = get self' ("weight_ih_l" +:+ pretty layer) /\
     get self ("bias_ih_l" +:+ pretty layer)
     = get self' ("bias_ih_l" +:+ pretty layer)) ->
  forward tanh self X hidden_0 = forward tanh self' X hidden_0.
Proof.
  intros HL HH Hact Hget. unfold forward, forward_loops.
  rewrite <- HL, <- HH. f_equal.
  apply bind_ext. intros T. apply bind_ext. intros B.
  apply for_each_ext. intros idx st _.
  apply for_each_ext. intros layer st' Hlayer.
  apply elem_of_seq in Hlayer.
  destruct (Hget layer) as (Hwhh & Hbhh & Hwih & Hbih); [lia|].
  unfold cell_update, get_or_0. unfold get in *.
  by rewrite Hwhh, Hbhh, Hwih, Hbih, Hact.
Qed.

End Frame.

(** ** Runs of the sample models, continued *)

Lemma forward_output_shapes_witness :
  forward unused_tanh sample_model sample_X (Some sample_hidden_0)
  = Ok (sample_outs, sample_final) /\
  exists T B,
    shape_at sample_X 0 = Ok T /\ shape_at sample_X 1 = Ok B /\
    0 < T /\ 0 < num_layers sample_model /\
    shape sample_outs = [T; B; hidden_size sample_model] /\ wf sample_outs /\
    shape sample_final = [num_layers sample_model; B; hidden_size sample_model] /\
    wf sample_final.
Proof.
  split; [reflexivity|].
  apply (forward_output_shapes unused_tanh sample_model sample_X
           (Some sample_hidden_0)).
  reflexivity.
Defined.

Lemma forward_outputs_have_no_nan_witness :
  forward unused_tanh sample_model sample_X (Some sample_hidden_0)
  = Ok (sample_outs, sample_final) /\
  isnan_any sample_outs = false /\ isnan_any sample_final = false.
Proof.
  split; [reflexivity|].
  apply (forward_outputs_have_no_nan unused_tanh sample_model sample_X
           (Some sample_hidden_0)).
  reflexivity.
Defined.

Lemma forward_last_output_is_top_final_witness :
  forward unused_tanh sample_model sample_X (Some sample_hidden_0)
  = Ok (sample_outs, sample_final) /\
  exists c, select0 sample_outs (-1) = Ok c /\ select0 sample_final (-1) = Ok c.
Proof.
  split; [reflexivity|].
  apply (forward_last_output_is_top_final unused_tanh sample_model sample_X
           (Some sample_hidden_0)).
  reflexivity.
Defined.

Lemma forward_loops_order_witness :
  forward_loops unused_tanh sample_model sample_X (Some sample_hidden_0)
  = Ok (mkLoop (mkTensor [2; 2; 1; 2] [20; 35; 41; 25; 111; 227; 271; 137]%float)
          [(0, 0); (0, 1); (1, 0); (1, 1)]) /\
  exists T, shape_at sample_X 0 = Ok T /\
    [(0, 0); (0, 1); (1, 0); (1, 1)]
    = (t ← seq 0 T; pair t <$> seq 0 (num_layers sample_model)).
Proof.
  split; [reflexivity|].
  apply (forward_loops_order unused_tanh sample_model sample_X
           (Some sample_hidden_0)
           (mkLoop (mkTensor [2; 2; 1; 2]
                      [20; 35; 41; 25; 111; 227; 271; 137]%float)
              [(0, 0); (0, 1); (1, 0); (1, 1)])).
  reflexivity.
Defined.

Lemma forward_relu_not_negative_witness :
  (activation_func sample_model = torch_relu /\
   forward unused_tanh sample_model sample_X (Some sample_hidden_0)
   = Ok (sample_outs, sample_final)) /\
  Forall not_negative (data sample_outs) /\
  Forall not_negative (data sample_final).
Proof.
  split; [split; reflexivity|].
  apply (forward_relu_not_negative unused_tanh sample_model sample_X
           (Some sample_hidden_0)); reflexivity.
Defined.

Lemma init_params_lookup_witness :
  NoDup (named_parameters sample_rnn).*1 /\
  (forall k v, get (MyRNN_init sample_rnn) k = Some v
               <-> (k, v) ∈ named_parameters sample_rnn) /\
  (forall k, k ∉ (named_parameters sample_rnn).*1 ->
     get (MyRNN_init sample_rnn) k = None /\
     get_or_0 (MyRNN_init sample_rnn) k = OInt0).
Proof.
  assert (NoDup (named_parameters sample_rnn).*1) as Hnodup.
  { apply (bool_decide_eq_true_1 (NoDup (named_parameters sample_rnn).*1)).
    vm_compute. reflexivity. }
  split; [exact Hnodup|].
  apply (init_params_lookup sample_rnn). exact Hnodup.
Defined.

Lemma forward_missing_weight_witness :
  (get sample_model_no_hh "weight_hh_l0" = None /\
   shape sample_X = [2; 1; 3] /\ 0 < 2 /\ 0 < num_layers sample_model_no_hh /\
   (forall h, @None Tensor = Some h ->
      exists Lh sh, shape h = Lh :: sh /\ 0 < Lh)) /\
  forward unused_tanh sample_model_no_hh sample_X None = Raise AttributeError.
Proof.
  assert (forall h, @None Tensor = Some h ->
            exists Lh sh, shape h = Lh :: sh /\ 0 < Lh) as Hnone.
  { intros h Hh. discriminate Hh. }
  split.
  - split_and!; [reflexivity|reflexivity|lia|simpl; lia|exact Hnone].
  - apply (forward_missing_weight unused_tanh sample_model_no_hh sample_X None
             2 1 [3]); [reflexivity|reflexivity|lia|simpl; lia|exact Hnone].
Defined.

Lemma forward_outputs_causal_witness :
  (shape sample_X = [2; 1; 3] /\ shape sample_X_late = [2; 1; 3] /\
   shape sample_hidden_0 = [num_layers sample_model; 1; hidden_size sample_model] /\
   params_okb sample_model 3 = true /\ 1 <= 2 /\
   (forall t, t < 1 ->
      select0 sample_X (Z.of_nat t) = select0 sample_X_late (Z.of_nat t)) /\
   forward unused_tanh sample_model sample_X (Some sample_hidden_0)
   = Ok (sample_outs, sample_final) /\
   forward unused_tanh sample_model sample_X_late (Some sample_hidden_0)
   = Ok (mkTensor [2; 1; 2] [41; 25; 274; 143]%float,
         mkTensor [2; 1; 2] [117; 230; 274; 143]%float)) /\
  forall t, t < 1 ->
    select0 sample_outs (Z.of_nat t)
    = select0 (mkTensor [2; 1; 2] [41; 25; 274; 143]%float) (Z.of_nat t).
Proof.
  assert (forall t, t < 1 ->
            select0 sample_X (Z.of_nat t) = select0 sample_X_late (Z.of_nat t))
    as Hagree.
  { intros t Ht. destruct t as [|t]; [reflexivity|lia]. }
  split.
  - split_and!; [reflexivity|reflexivity|reflexivity|reflexivity|lia
                |exact Hagree|reflexivity|reflexivity].
  - apply (forward_outputs_causal unused_tanh sample_model sample_X sample_X_late
             sample_hidden_0 2 2 1 3 1 sample_outs sample_final
             (mkTensor [2; 1; 2] [41; 25; 274; 143]%float)
             (mkTensor [2; 1; 2] [117; 230; 274; 143]%float));
      [reflexivity|reflexivity|reflexivity|reflexivity|lia|lia
      |exact Hagree|reflexivity|reflexivity].
Defined.

Lemma forward_in_two_pieces_witness :
  (shape sample_X_first = [1; 1; 3] /\ wf sample_X_first /\
   shape sample_X_second = [1; 1; 3] /\
   shape sample_hidden_0 = [num_layers sample_model; 1; hidden_size sample_model] /\
   params_okb sample_model 3 = true /\
   forward unused_tanh sample_model sample_X_first (Some sample_hidden_0)
   = Ok (sample_outs_first, sample_final_first) /\
   forward unused_tanh sample_model sample_X_second (Some sample_final_first)
   = Ok (sample_outs_second, sample_final)) /\
  forward unused_tanh sample_model
    (mkTensor [1 + 1; 1; 3] (data sample_X_first ++ data sample_X_second))
    (Some sample_hidden_0)
  = Ok (mkTensor [1 + 1; 1; hidden_size sample_model]
          (data sample_outs_first ++ data sample_outs_second),
        sample_final).
Proof.
  split.
  - split_and!; reflexivity.
  - apply (forward_in_two_pieces unused_tanh sample_model sample_X_first
             sample_X_second sample_hidden_0 1 1 1 3 sample_outs_first
             sample_final_first sample_outs_second sample_final);
      reflexivity.
Defined.

Lemma forward_batch_independent_witness :
  (shape pair_X = [2; 2; 3] /\ shape pair_X_other = [2; 2; 3] /\
   shape pair_hidden_0 = [num_layers sample_model; 2; hidden_size sample_model] /\
   shape pair_hidden_0_other
   = [num_layers sample_model; 2; hidden_size sample_model] /\
   params_okb sample_model 3 = true /\ 0 < 2 /\
   (forall t, t < 2 ->
      index2 pair_X (Z.of_nat t) (Z.of_nat 0)
      = index2 pair_X_other (Z.of_nat t) (Z.of_nat 0)) /\
   (forall l, l < num_layers sample_model ->
      index2 pair_hidden_0 (Z.of_nat l) (Z.of_nat 0)
      = index2 pair_hidden_0_other (Z.of_nat l) (Z.of_nat 0)) /\
   forward unused_tanh sample_model pair_X (Some pair_hidden_0)
   = Ok (mkTensor [2; 2; 2] [41; 25; 26; 12; 271; 137; 177; 83]%float,
         mkTensor [2; 2; 2] [111; 227; 70; 148; 271; 137; 177; 83]%float) /\
   forward unused_tanh sample_model pair_X_other (Some pair_hidden_0_other)
   = Ok (mkTensor [2; 2; 2] [41; 25; 75; 51; 271; 137; 503; 253]%float,
         mkTensor [2; 2; 2] [111; 227; 201; 425; 271; 137; 503; 253]%float)) /\
  (forall t, t < 2 ->
     index2 (mkTensor [2; 2; 2] [41; 25; 26; 12; 271; 137; 177; 83]%float)
       (Z.of_nat t) (Z.of_nat 0)
     = index2 (mkTensor [2; 2; 2] [41; 25; 75; 51; 271; 137; 503; 253]%float)
         (Z.of_nat t) (Z.of_nat 0)) /\
  (forall l, l < num_layers sample_model ->
     index2 (mkTensor [2; 2; 2] [111; 227; 70; 148; 271; 137; 177; 83]%float)
       (Z.of_nat l) (Z.of_nat 0)
     = index2 (mkTensor [2; 2; 2] [111; 227; 201; 425; 271; 137; 503; 253]%float)
         (Z.of_nat l) (Z.of_nat 0)).
Proof.
  assert (forall t, t < 2 ->
            index2 pair_X (Z.of_nat t) (Z.of_nat 0)
            = index2 pair_X_other (Z.of_nat t) (Z.of_nat 0)) as HX.
  { intros t Ht. destruct t as [|[|t]]; [reflexivity|reflexivity|lia]. }
  assert (forall l, l < num_layers sample_model ->
            index2 pair_hidden_0 (Z.of_nat l) (Z.of_nat 0)
            = index2 pair_hidden_0_other (Z.of_nat l) (Z.of_nat 0)) as Hh.
  { intros l Hl. simpl in Hl.
    destruct l as [|[|l]]; [reflexivity|reflexivity|lia]. }
  split.
  - split_and!; [reflexivity|reflexivity|reflexivity|reflexivity|reflexivity
                |lia|exact HX|exact Hh|reflexivity|reflexivity].
  - apply (forward_batch_independent unused_tanh sample_model pair_X pair_X_other
             pair_hidden_0 pair_hidden_0_other 2 2 3 0);
      [reflexivity|reflexivity|reflexivity|reflexivity|reflexivity
      |lia|exact HX|exact Hh|reflexivity|reflexivity].
Defined.

Lemma compute_new_hidden_state_shape_witness :
  (shape (matrix 2 2 [1; 2; 3; 4]%float) = [2; 2] /\
   shape (matrix 2 3 [1; 0; 1; 0; 1; 0]%float) = [2; 3] /\
   bias_conformant 2 (OTensor (vector [10; 20]%float)) /\
   bias_conformant 2 OInt0 /\
   compute_new_hidden_state unused_tanh unbatched_hidden unbatched_input
     (Some (matrix 2 2 [1; 2; 3; 4]%float)) (OTensor (vector [10; 20]%float))
     (Some (matrix 2 3 [1; 0; 1; 0; 1; 0]%float)) OInt0 torch_relu
   = Ok (mkTensor [2] [19; 33]%float)) /\
  wf (mkTensor [2] [19; 33]%float) /\
  exists lead, shape (mkTensor [2] [19; 33]%float) = lead ++ [2].
Proof.
  assert (bias_conformant 2 (OTensor (vector [10; 20]%float))) as Hb.
  { split; reflexivity. }
  split.
  - split_and!; [reflexivity|reflexivity|exact Hb|exact I|reflexivity].
  - apply (compute_new_hidden_state_shape unused_tanh unbatched_hidden
             unbatched_input (matrix 2 2 [1; 2; 3; 4]%float)
             (matrix 2 3 [1; 0; 1; 0; 1; 0]%float)
             (OTensor (vector [10; 20]%float)) OInt0 torch_relu 2 2 3);
      [reflexivity|reflexivity|exact Hb|exact I|reflexivity].
Defined.

Lemma forward_reads_layer_parameters_witness :
  (num_layers sample_model = num_layers sample_model_more /\
   hidden_size sample_model = hidden_size sample_model_more /\
   activation_func sample_model = activation_func sample_model_more /\
   (forall layer, layer < num_layers sample_model ->
      get sample_model ("weight_hh_l" +:+ pretty layer)
      = get sample_model_more ("weight_hh_l" +:+ pretty layer) /\
      get sample_model ("bias_hh_l" +:+ pretty layer)
      = get sample_model_more ("bias_hh_l" +:+ pretty layer) /\
      get sample_model ("weight_ih_l" +:+ pretty layer)
      = get sample_model_more ("weight_ih_l" +:+ pretty layer) /\
      get sample_model ("bias_ih_l" +:+ pretty layer)
      = get sample_model_more ("bias_ih_l" +:+ pretty layer))) /\
  forward unused_tanh sample_model sample_X None
  = forward unused_tanh sample_model_more sample_X None.
Proof.
  assert (forall layer, layer < num_layers sample_model ->
      get sample_model ("weight_hh_l" +:+ pretty layer)
      = get sample_model_more ("weight_hh_l" +:+ pretty layer) /\
      get sample_model ("bias_hh_l" +:+ pretty layer)
      = get sample_model_more ("bias_hh_l" +:+ pretty layer) /\
      get sample_model ("weight_ih_l" +:+ pretty layer)
      = get sample_model_more ("weight_ih_l" +:+ pretty layer) /\
      get sample_model ("bias_ih_l" +:+ pretty layer)
      = get sample_model_more ("bias_ih_l" +:+ pretty layer)) as Hget.
  { intros layer Hl. simpl in Hl.
    destruct layer as [|[|layer]]; [split_and!; reflexivity..|lia]. }
  split.
  - split_and!; [reflexivity|reflexivity|reflexivity|exact Hget].
  - apply (forward_reads_layer_parameters unused_tanh sample_model
             sample_model_more sample_X None);
      [reflexivity|reflexivity|reflexivity|exact Hget].
Defined.
